(* ===================================================================== *)
(* plugins/meta/vrf/vrf.go: VRF membership of an interface               *)
(*                                                                       *)
(* The file talks to the kernel through the netlink bindings only.  The  *)
(* embedding keeps that boundary: every netlink / netlinksafe call is a  *)
(* node of a program tree, the kernel is a handler that answers calls,   *)
(* and running a tree against a handler yields the Go return value, the  *)
(* final kernel state and the log of calls with their answers.           *)
(* ===================================================================== *)

From Stdlib Require Import ZArith Lia Strings.Byte.
From stdpp Require Import base option list strings gmap.

Open Scope string_scope.
Open Scope list_scope.
Open Scope Z_scope.

(* --------------------------------------------------------------------- *)
(* Data of the netlink bindings, restricted to the fields vrf.go reads   *)
(* or writes.  Go int and uint32 values are integers in Z; the only      *)
(* arithmetic on them that could wrap is the counter of the allocator    *)
(* loop, which stops below math.MaxUint32.                               *)
(* --------------------------------------------------------------------- *)

(* net.IP and net.IPMask are byte slices. *)
Definition IP : Type := list byte.
Definition IPMask : Type := list byte.

Record IPNet := mkIPNet { ipnet_IP : IP; ipnet_Mask : IPMask }.

Record LinkAttrs := mkLinkAttrs {
  Index : Z;
  Name : string;
  MasterIndex : Z
}.

(* netlink.Vrf: the embedded LinkAttrs and the routing table (uint32). *)
Record Vrf := mkVrf { vrf_LinkAttrs : LinkAttrs; vrf_Table : Z }.

(* netlink.Link is an interface; *netlink.Vrf is the implementation the
   file downcasts to, every other implementation is kept with its kernel
   type name. *)
Inductive Link :=
| LinkVrf (v : Vrf)
| LinkOther (kind : string) (attrs : LinkAttrs).

(* link.Attrs() *)
Definition Attrs (l : Link) : LinkAttrs :=
  match l with
  | LinkVrf v => vrf_LinkAttrs v
  | LinkOther _ a => a
  end.

(* netlink.Addr embeds *net.IPNet. *)
Record Addr := mkAddr {
  addr_IPNet : IPNet;
  addr_Label : string;
  addr_Flags : Z;
  addr_Scope : Z
}.

Record Route := mkRoute {
  LinkIndex : Z;
  Scope : Z;
  Dst : option IPNet;
  Src : option IP;
  Gw : option IP;
  Protocol : Z;
  Priority : Z;
  Table : Z
}.

(* The zero value of netlink.Route, the base of a filter literal. *)
Definition zeroRoute : Route :=
  {| LinkIndex := 0; Scope := 0; Dst := None; Src := None; Gw := None;
     Protocol := 0; Priority := 0; Table := 0 |}.

(* Assignments to single fields of a route. *)
Definition setTable (t : Z) (r : Route) : Route :=
  {| LinkIndex := LinkIndex r; Scope := Scope r; Dst := Dst r; Src := Src r;
     Gw := Gw r; Protocol := Protocol r; Priority := Priority r; Table := t |}.

Definition setLinkIndex (i : Z) (r : Route) : Route :=
  {| LinkIndex := i; Scope := Scope r; Dst := Dst r; Src := Src r;
     Gw := Gw r; Protocol := Protocol r; Priority := Priority r; Table := Table r |}.

Definition setScope (s : Z) (r : Route) : Route :=
  {| LinkIndex := LinkIndex r; Scope := s; Dst := Dst r; Src := Src r;
     Gw := Gw r; Protocol := Protocol r; Priority := Priority r; Table := Table r |}.

Definition setDst (d : option IPNet) (r : Route) : Route :=
  {| LinkIndex := LinkIndex r; Scope := Scope r; Dst := d; Src := Src r;
     Gw := Gw r; Protocol := Protocol r; Priority := Priority r; Table := Table r |}.

(* --------------------------------------------------------------------- *)
(* Go errors.  fmt.Errorf(format, args...) is kept as the format string  *)
(* with its argument list, so that "the error names x" is membership of  *)
(* x among the arguments; an error the kernel returns is an errno.       *)
(* --------------------------------------------------------------------- *)

Inductive error :=
| KernelError (errno : Z)
| Errorf (format : string) (args : list fmt_arg)
with fmt_arg :=
| ArgString (s : string)
| ArgUint (n : Z)
| ArgAddr (a : Addr)
| ArgIPNet (n : IPNet)
| ArgRoute (r : Route)
| ArgError (e : error).

(* A Go result pair (value, error): the callers in vrf.go look at the
   value only when the error is nil. *)
Inductive result (A : Type) :=
| Ok (a : A)
| Error (e : error).
Arguments Ok {A} a.
Arguments Error {A} e.

Definition names (e : error) (a : fmt_arg) : Prop :=
  match e with
  | KernelError _ => False
  | Errorf _ args => a ∈ args
  end.

(* --------------------------------------------------------------------- *)
(* findFreeRoutingTableID                                                *)
(* --------------------------------------------------------------------- *)

(* math.MaxUint32 *)
Definition MaxUint32 : Z := 4294967295.

(* The counting loop  for x := lo; x < lo + n; x++ { body }  where the
   body either returns from the function (Some) or falls through to the
   next iteration (None).  The trip count is a binary number, so that the
   loop of findFreeRoutingTableID, whose bound is math.MaxUint32, can be
   evaluated: the recursion splits the range in halves and stops at the
   first iteration that returns. *)
Fixpoint for_count {A : Type} (n : positive) (body : Z → option A) (lo : Z)
  : option A :=
  match n with
  | xH => body lo
  | xO q =>
      match for_count q body lo with
      | Some a => Some a
      | None => for_count q body (lo + Z.pos q)
      end
  | xI q =>
      match body lo with
      | Some a => Some a
      | None =>
          match for_count q body (lo + 1) with
          | Some a => Some a
          | None => for_count q body (lo + 1 + Z.pos q)
          end
      end
  end.

(* for x := lo; x < hi; x++ { body } *)
Definition for_range {A : Type} (lo hi : Z) (body : Z → option A) : option A :=
  if decide (lo < hi) then for_count (Z.to_pos (hi - lo)) body lo else None.

(* First loop of the function: the set of tables of the VRF links. *)
Definition takenTables (links : list Link) : gset Z :=
  foldl (fun taken l =>
           match l with
           | LinkVrf vrf => {[ vrf_Table vrf ]} ∪ taken
           | LinkOther _ _ => taken
           end) ∅ links.

Definition findFreeRoutingTableID (links : list Link) : result Z :=
  let taken := takenTables links in
  match for_range 1 MaxUint32
          (fun res => if decide (res ∈ taken) then None else Some res) with
  | Some res => Ok res
  | None =>
      Error (Errorf "findFreeRoutingTableID: Failed to find an available routing id" [])
  end.

Arguments findFreeRoutingTableID : simpl never.

Definition vrfTables (links : list Link) : list Z :=
  omap (fun l => match l with LinkVrf v => Some (vrf_Table v) | LinkOther _ _ => None end) links.

Definition vrfLink (name : string) (index table : Z) : Link :=
  LinkVrf {| vrf_LinkAttrs := {| Index := index; Name := name; MasterIndex := 0 |};
             vrf_Table := table |}.

Definition device (name : string) (index master : Z) : Link :=
  LinkOther "device" {| Index := index; Name := name; MasterIndex := master |}.

(* --------------------------------------------------------------------- *)
(* The kernel boundary.  A call names the binding and its arguments; the *)
(* type of its answer depends on the call.  AddrDel and RouteDel are     *)
(* part of the bindings although vrf.go never issues them: they are the  *)
(* calls a rollback would have to make.                                  *)
(* --------------------------------------------------------------------- *)

Inductive Call :=
| CLinkByName (name : string)
| CLinkByIndex (index : Z)
| CLinkList
| CAddrList (link : Link) (family : Z)
| CRouteListFiltered (family : Z) (flt : Route) (filterMask : Z)
| CLinkAdd (link : Link)
| CLinkSetUp (link : Link)
| CLinkSetMaster (link master : Link)
| CLinkSetNoMaster (link : Link)
| CAddrAdd (link : Link) (addr : Addr)
| CAddrDel (link : Link) (addr : Addr)
| CRouteReplace (route : Route)
| CRouteDel (route : Route)
| CSleep (d : Z).

(* An answer, as it is written in the log. *)
Inductive Reply :=
| RLink (r : result Link)
| RLinks (r : result (list Link))
| RAddrs (r : result (list Addr))
| RRoutes (r : result (list Route))
| RStatus (err : option error)
| RUnit.

Definition Resp (c : Call) : Type :=
  match c with
  | CLinkByName _ | CLinkByIndex _ => result Link
  | CLinkList => result (list Link)
  | CAddrList _ _ => result (list Addr)
  | CRouteListFiltered _ _ _ => result (list Route)
  | CLinkAdd _ | CLinkSetUp _ | CLinkSetMaster _ _ | CLinkSetNoMaster _
  | CAddrAdd _ _ | CAddrDel _ _ | CRouteReplace _ | CRouteDel _ => option error
  | CSleep _ => unit
  end.

Definition reply_of (c : Call) : Resp c → Reply :=
  match c with
  | CLinkByName _ | CLinkByIndex _ => RLink
  | CLinkList => RLinks
  | CAddrList _ _ => RAddrs
  | CRouteListFiltered _ _ _ => RRoutes
  | CLinkAdd _ | CLinkSetUp _ | CLinkSetMaster _ _ | CLinkSetNoMaster _
  | CAddrAdd _ _ | CAddrDel _ _ | CRouteReplace _ | CRouteDel _ => RStatus
  | CSleep _ => fun _ => RUnit
  end.

Definition Event : Type := Call * Reply.

(* A call that changes kernel state. *)
Definition mutates (c : Call) : bool :=
  match c with
  | CLinkAdd _ | CLinkSetUp _ | CLinkSetMaster _ _ | CLinkSetNoMaster _
  | CAddrAdd _ _ | CAddrDel _ _ | CRouteReplace _ | CRouteDel _ => true
  | _ => false
  end.

(* A call that takes away what addInterface installs. *)
Definition undoes (c : Call) : bool :=
  match c with
  | CLinkSetNoMaster _ | CAddrDel _ _ | CRouteDel _ => true
  | _ => false
  end.

(* Programs over the boundary: return a value, or issue a call and go on
   with its answer.  Every loop of vrf.go that issues calls is bounded by
   a list or by maxRetries, so the trees are finite. *)
Inductive Prog (A : Type) :=
| Ret (a : A)
| Vis (c : Call) (k : Resp c → Prog A).
Arguments Ret {A} a.
Arguments Vis {A} c k.

Fixpoint bind {A B : Type} (p : Prog A) (f : A → Prog B) : Prog B :=
  match p with
  | Ret a => f a
  | Vis c k => Vis c (fun x => bind (k x) f)
  end.

#[export] Instance Prog_ret : MRet Prog := fun A a => Ret a.
#[export] Instance Prog_bind : MBind Prog := fun A B f p => bind p f.

Definition call (c : Call) : Prog (Resp c) := Vis c Ret.

(* The kernel: a state and an answer to every call. *)
Definition Handler (W : Type) : Type := ∀ c : Call, W → Resp c * W.

Record Outcome (A W : Type) := mkOutcome {
  returned : A;
  world : W;
  trace : list Event
}.
Arguments mkOutcome {A W} _ _ _.
Arguments returned {A W} _.
Arguments world {A W} _.
Arguments trace {A W} _.

Fixpoint run {W A : Type} (h : Handler W) (p : Prog A) (w : W) : Outcome A W :=
  match p with
  | Ret a => mkOutcome a w []
  | Vis c k =>
      let '(x, w1) := h c w in
      let o := run h (k x) w1 in
      mkOutcome (returned o) (world o) ((c, reply_of c x) :: trace o)
  end.

(* The bindings under the names vrf.go calls them by. *)
Module netlinksafe.
Definition LinkByName (name : string) : Prog (result Link) :=
  call (CLinkByName name).
Definition LinkList : Prog (result (list Link)) := call CLinkList.
Definition AddrList (link : Link) (family : Z) : Prog (result (list Addr)) :=
  call (CAddrList link family).
Definition RouteListFiltered (family : Z) (flt : Route) (filterMask : Z)
  : Prog (result (list Route)) :=
  call (CRouteListFiltered family flt filterMask).
End netlinksafe.

Module netlink.
Definition FAMILY_ALL : Z := 0.
Definition FAMILY_V6 : Z := 10.
Definition SCOPE_UNIVERSE : Z := 0.
Definition RT_FILTER_SCOPE : Z := Z.shiftl 1 2.
Definition RT_FILTER_OIF : Z := Z.shiftl 1 6.
Definition RT_FILTER_DST : Z := Z.shiftl 1 7.
Definition RT_FILTER_TABLE : Z := Z.shiftl 1 10.

(* netlink.NewLinkAttrs() *)
Definition NewLinkAttrs : LinkAttrs :=
  {| Index := 0; Name := ""; MasterIndex := 0 |}.

Definition LinkByIndex (index : Z) : Prog (result Link) :=
  call (CLinkByIndex index).
Definition LinkAdd (link : Link) : Prog (option error) := call (CLinkAdd link).
Definition LinkSetUp (link : Link) : Prog (option error) := call (CLinkSetUp link).
Definition LinkSetMaster (link master : Link) : Prog (option error) :=
  call (CLinkSetMaster link master).
Definition LinkSetNoMaster (link : Link) : Prog (option error) :=
  call (CLinkSetNoMaster link).
Definition AddrAdd (link : Link) (addr : Addr) : Prog (option error) :=
  call (CAddrAdd link addr).
Definition RouteReplace (route : Route) : Prog (option error) :=
  call (CRouteReplace route).
End netlink.

(* time.Sleep and the time constants, in nanoseconds like time.Duration. *)
Module time.
Definition Millisecond : Z := 1000000.
Definition Sleep (d : Z) : Prog unit := call (CSleep d).
End time.

(* --------------------------------------------------------------------- *)
(* findVRF, createVRF, resetMaster, getGlobalAddresses                   *)
(* --------------------------------------------------------------------- *)

Definition findVRF (name : string) : Prog (result Vrf) :=
  r ← netlinksafe.LinkByName name;
  match r with
  | Error err => mret (Error err)
  | Ok link =>
      match link with
      | LinkVrf vrf => mret (Ok vrf)
      | LinkOther _ _ =>
          mret (Error (Errorf "Netlink %s is not a VRF" [ArgString name]))
      end
  end.

Definition createVRF (name : string) (tableID : Z) : Prog (result Vrf) :=
  r ← netlinksafe.LinkList;
  match r with
  | Error err =>
      mret (Error (Errorf "createVRF: Failed to find links %v" [ArgError err]))
  | Ok links =>
      match (if decide (tableID = 0) then findFreeRoutingTableID links
             else Ok tableID) with
      | Error err => mret (Error err)
      | Ok tableID =>
          let linkAttrs := {| Index := Index netlink.NewLinkAttrs;
                              Name := name;
                              MasterIndex := MasterIndex netlink.NewLinkAttrs |} in
          let vrf := {| vrf_LinkAttrs := linkAttrs; vrf_Table := tableID |} in
          e1 ← netlink.LinkAdd (LinkVrf vrf);
          match e1 with
          | Some err =>
              mret (Error (Errorf "could not add VRF %s: %v"
                             [ArgString name; ArgError err]))
          | None =>
              e2 ← netlink.LinkSetUp (LinkVrf vrf);
              match e2 with
              | Some err =>
                  mret (Error (Errorf "could not set link up for VRF %s: %v"
                                 [ArgString name; ArgError err]))
              | None => mret (Ok vrf)
              end
          end
      end
  end.

(* assignedInterfaces: the links whose master is the VRF, in listing order. *)
Definition assignedInterfaces (vrf : Vrf) : Prog (result (list Link)) :=
  r ← netlinksafe.LinkList;
  match r with
  | Error err =>
      mret (Error (Errorf "getAssignedInterfaces: Failed to find links %v"
                     [ArgError err]))
  | Ok links =>
      mret (Ok (filter (fun l => MasterIndex (Attrs l) = Index (vrf_LinkAttrs vrf))
                  links))
  end.

Definition resetMaster (interfaceName : string) : Prog (option error) :=
  r ← netlinksafe.LinkByName interfaceName;
  match r with
  | Error _ =>
      mret (Some (Errorf "resetMaster: could not get link by name %s"
                    [ArgString interfaceName]))
  | Ok intf =>
      e ← netlink.LinkSetNoMaster intf;
      match e with
      | Some _ =>
          mret (Some (Errorf "resetMaster: could reset master to %s"
                        [ArgString interfaceName]))
      | None => mret None
      end
  end.

Definition globalAddresses (addresses : list Addr) : list Addr :=
  filter (fun addr => addr_Scope addr = netlink.SCOPE_UNIVERSE) addresses.

Definition getGlobalAddresses (link : Link) (family : Z)
  : Prog (result (list Addr)) :=
  r ← netlinksafe.AddrList link family;
  match r with
  | Error err =>
      mret (Error (Errorf "failed getting list of IP addresses for %s: %w"
                     [ArgString (Name (Attrs link)); ArgError err]))
  | Ok addresses => mret (Ok (globalAddresses addresses))
  end.

(* --------------------------------------------------------------------- *)
(* addInterface                                                          *)
(* --------------------------------------------------------------------- *)

Definition backoffBase : Z := 10 * time.Millisecond.
Definition maxRetries : Z := 8.

(* net.IPMask{0xff, ..., 0xff}, sixteen bytes *)
Definition hostMask : IPMask := replicate 16 xff.

(* The filter of the routes snapshot, before the master is set. *)
Definition snapshotFilter (i : Link) : Route :=
  setScope netlink.SCOPE_UNIVERSE (setLinkIndex (Index (Attrs i)) zeroRoute).

Definition snapshotMask : Z := Z.lor netlink.RT_FILTER_OIF netlink.RT_FILTER_SCOPE.

(* The filter of the query the retry loop repeats. *)
Definition hostRouteFilter (vrf : Vrf) (i : Link) (toFind : Addr) : Route :=
  setLinkIndex (Index (Attrs i))
    (setTable (vrf_Table vrf)
       (setDst (Some {| ipnet_IP := ipnet_IP (addr_IPNet toFind);
                        ipnet_Mask := hostMask |}) zeroRoute)).

Definition hostRouteMask : Z :=
  Z.lor (Z.lor netlink.RT_FILTER_OIF netlink.RT_FILTER_TABLE) netlink.RT_FILTER_DST.

Definition hostRouteQuery (vrf : Vrf) (i : Link) (toFind : Addr) : Call :=
  CRouteListFiltered netlink.FAMILY_ALL (hostRouteFilter vrf i toFind) hostRouteMask.

(* The loop  for retryCount := 0; retryCount <= maxRetries; retryCount++
   over the values its counter still has to take.  None is leaving the
   loop (break, or the condition turning false), Some err is the return
   from addInterface inside the loop. *)
Fixpoint waitForHostRoute (vrf : Vrf) (i : Link) (intf : string) (toFind : Addr)
    (retryCounts : list Z) : Prog (option error) :=
  match retryCounts with
  | [] => mret None
  | retryCount :: rest =>
      r ← netlinksafe.RouteListFiltered netlink.FAMILY_ALL
            (hostRouteFilter vrf i toFind) hostRouteMask;
      match r with
      | Error err =>
          mret (Some (Errorf "failed getting routes for %s table %d for dst %s: %v"
                        [ArgString intf; ArgUint (vrf_Table vrf);
                         ArgIPNet (addr_IPNet toFind); ArgError err]))
      | Ok routesVRFTable =>
          if decide (1 ≤ Z.of_nat (List.length routesVRFTable)) then mret None
          else if decide (retryCount = maxRetries) then
            mret (Some (Errorf "failed getting local/host addresses for %s in table %d with dst %s"
                          [ArgString intf; ArgUint (vrf_Table vrf);
                           ArgIPNet (addr_IPNet toFind)]))
          else
            _ ← time.Sleep (backoffBase * Z.shiftl 1 retryCount);
            waitForHostRoute vrf i intf toFind rest
      end
  end.

Definition retryCounts : list Z := seqZ 0 (maxRetries + 1).

Section AddInterface.

(* Addr.Equal of the bindings, the comparison the diff of the two
   address snapshots is made with. *)
Variable Equal : Addr → Addr → bool.

(* The inner loop over afterAddresses: does it reach continue CONTINUE? *)
Definition foundIn (afterAddresses : list Addr) (toFind : Addr) : bool :=
  existsb (fun current => Equal toFind current) afterAddresses.

(* The loop labelled CONTINUE.  None is the loop running to its end,
   Some err the return from addInterface inside it. *)
Fixpoint restoreAddresses (vrf : Vrf) (i : Link) (intf : string)
    (afterAddresses beforeAddresses : list Addr) : Prog (option error) :=
  match beforeAddresses with
  | [] => mret None
  | toFind :: rest =>
      if foundIn afterAddresses toFind then
        restoreAddresses vrf i intf afterAddresses rest
      else
        e ← netlink.AddrAdd i toFind;
        match e with
        | Some err =>
            mret (Some (Errorf "could not restore address %s to %s @ %s: %v"
                          [ArgAddr toFind; ArgString intf;
                           ArgString (Name (vrf_LinkAttrs vrf)); ArgError err]))
        | None =>
            w ← waitForHostRoute vrf i intf toFind retryCounts;
            match w with
            | Some err => mret (Some err)
            | None => restoreAddresses vrf i intf afterAddresses rest
            end
        end
  end.

(* The last loop: apply all saved routes. *)
Fixpoint replayRoutes (vrf : Vrf) (globalRoutes : list Route)
  : Prog (option error) :=
  match globalRoutes with
  | [] => mret None
  | route :: rest =>
      let r := setTable (vrf_Table vrf) route in
      e ← netlink.RouteReplace r;
      match e with
      | Some err =>
          mret (Some (Errorf "could not add route '%s': %v"
                        [ArgRoute r; ArgError err]))
      | None => replayRoutes vrf rest
      end
  end.

(* The loop that filters out connected IPv6 routes. *)
Definition globalRoutesOf (r : list Route) : list Route :=
  filter (fun route => is_Some (Src route)) r.

Definition addInterface (vrf : Vrf) (intf : string) : Prog (option error) :=
  r ← netlinksafe.LinkByName intf;
  match r with
  | Error _ =>
      mret (Some (Errorf "could not get link by name %s" [ArgString intf]))
  | Ok i =>
      if decide (MasterIndex (Attrs i) ≠ 0) then
        m ← netlink.LinkByIndex (MasterIndex (Attrs i));
        match m with
        | Error err =>
            mret (Some (Errorf "interface %s has already a master set, could not retrieve the name: %v"
                          [ArgString intf; ArgError err]))
        | Ok master =>
            mret (Some (Errorf "interface %s has already a master set: %s"
                          [ArgString intf; ArgString (Name (Attrs master))]))
        end
      else
        b ← getGlobalAddresses i netlink.FAMILY_V6;
        match b with
        | Error err =>
            mret (Some (Errorf "failed getting global ipv6 addresses before slaving interface: %w"
                          [ArgError err]))
        | Ok beforeAddresses =>
            l ← netlinksafe.RouteListFiltered netlink.FAMILY_ALL
                  (snapshotFilter i) snapshotMask;
            match l with
            | Error _ =>
                mret (Some (Errorf "failed getting all routes for %s"
                              [ArgString intf]))
            | Ok r =>
                let globalRoutes := globalRoutesOf r in
                s ← netlink.LinkSetMaster i (LinkVrf vrf);
                match s with
                | Some err =>
                    mret (Some (Errorf "could not set vrf %s as master of %s: %v"
                                  [ArgString (Name (vrf_LinkAttrs vrf));
                                   ArgString intf; ArgError err]))
                | None =>
                    a ← getGlobalAddresses i netlink.FAMILY_V6;
                    match a with
                    | Error err =>
                        mret (Some (Errorf "failed getting global ipv6 addresses after slaving interface: %w"
                                      [ArgError err]))
                    | Ok afterAddresses =>
                        e ← restoreAddresses vrf i intf afterAddresses
                              beforeAddresses;
                        match e with
                        | Some err => mret (Some err)
                        | None => replayRoutes vrf globalRoutes
                        end
                    end
                end
            end
        end
  end.

End AddInterface.

(* --------------------------------------------------------------------- *)
(* A simulated network namespace.  The statements about vrf.go below     *)
(* hold for every handler; this one is the handler the examples run on.  *)
(* It keeps links, addresses and routes, drops the global addresses and  *)
(* the routes of an interface whose master is set unless                 *)
(* keep_addr_on_down is on, and installs the host route of an added      *)
(* address only after a number of route listings.                        *)
(* --------------------------------------------------------------------- *)

#[export] Instance byte_eq_decision : EqDecision byte := Byte.byte_eq_dec.
#[export] Instance IPNet_eq_decision : EqDecision IPNet.
Proof. solve_decision. Defined.
#[export] Instance Addr_eq_decision : EqDecision Addr.
Proof. solve_decision. Defined.
#[export] Instance Route_eq_decision : EqDecision Route.
Proof. solve_decision. Defined.

(* Modelled from the spec: Addr.Equal belongs to the netlink bindings, not
   to vrf.go; section 3 keys the diff of the snapshots on the address and
   its prefix length, labels and flags are not compared. *)
Definition addrEqual (a x : Addr) : bool :=
  bool_decide (addr_IPNet a = addr_IPNet x).

Module Sim.

Definition ENODEV : Z := 19.
Definition EEXIST : Z := 17.
Definition RT_TABLE_MAIN : Z := 254.

Record Netns := mkNetns {
  links : list Link;
  addrs : list (Z * Addr);
  routes : list Route;
  pending : list (nat * Route);
  keep_addr_on_down : bool;
  route_delay : nat;
  clock : Z
}.

Definition withLinks (ls : list Link) (n : Netns) : Netns :=
  mkNetns ls (addrs n) (routes n) (pending n) (keep_addr_on_down n)
    (route_delay n) (clock n).
Definition withAddrs (l : list (Z * Addr)) (n : Netns) : Netns :=
  mkNetns (links n) l (routes n) (pending n) (keep_addr_on_down n)
    (route_delay n) (clock n).
Definition withRoutes (rs : list Route) (n : Netns) : Netns :=
  mkNetns (links n) (addrs n) rs (pending n) (keep_addr_on_down n)
    (route_delay n) (clock n).
Definition withPending (ps : list (nat * Route)) (n : Netns) : Netns :=
  mkNetns (links n) (addrs n) (routes n) ps (keep_addr_on_down n)
    (route_delay n) (clock n).
Definition withClock (c : Z) (n : Netns) : Netns :=
  mkNetns (links n) (addrs n) (routes n) (pending n) (keep_addr_on_down n)
    (route_delay n) c.

Definition byName (name : string) (n : Netns) : option Link :=
  head (filter (fun l => Name (Attrs l) = name) (links n)).

Definition byIndex (index : Z) (n : Netns) : option Link :=
  head (filter (fun l => Index (Attrs l) = index) (links n)).

Definition lookup (o : option Link) : result Link :=
  match o with
  | Some l => Ok l
  | None => Error (KernelError ENODEV)
  end.

Definition setMaster (master : Z) (l : Link) : Link :=
  let a := Attrs l in
  let a' := {| Index := Index a; Name := Name a; MasterIndex := master |} in
  match l with
  | LinkVrf v => LinkVrf {| vrf_LinkAttrs := a'; vrf_Table := vrf_Table v |}
  | LinkOther k _ => LinkOther k a'
  end.

Definition setIndex (index : Z) (l : Link) : Link :=
  let a := Attrs l in
  let a' := {| Index := index; Name := Name a; MasterIndex := MasterIndex a |} in
  match l with
  | LinkVrf v => LinkVrf {| vrf_LinkAttrs := a'; vrf_Table := vrf_Table v |}
  | LinkOther k _ => LinkOther k a'
  end.

Definition freshIndex (n : Netns) : Z :=
  1 + foldr Z.max 0 (map (fun l => Index (Attrs l)) (links n)).

(* The table the routes of a link live in: its master's if that is a
   VRF, the main table otherwise. *)
Definition tableOf (index : Z) (n : Netns) : Z :=
  match byIndex index n with
  | Some l =>
      match byIndex (MasterIndex (Attrs l)) n with
      | Some (LinkVrf v) => vrf_Table v
      | _ => RT_TABLE_MAIN
      end
  | None => RT_TABLE_MAIN
  end.

Definition matchesFilter (flt : Route) (mask : Z) (r : Route) : bool :=
  (negb (Z.testbit mask 6) || bool_decide (LinkIndex r = LinkIndex flt))
  && (negb (Z.testbit mask 2) || bool_decide (Scope r = Scope flt))
  && (negb (Z.testbit mask 7) || bool_decide (Dst r = Dst flt))
  && (negb (Z.testbit mask 10) || bool_decide (Table r = Table flt)).

(* One route listing goes by: routes that were due become visible. *)
Definition tick (n : Netns) : Netns :=
  let due := filter (fun p => p.1 = O) (pending n) in
  let later := filter (fun p => p.1 ≠ O) (pending n) in
  withPending (map (fun p => (Nat.pred p.1, p.2)) later)
    (withRoutes (routes n ++ map snd due) n).

Definition hostRoute (index : Z) (a : Addr) (n : Netns) : Route :=
  setLinkIndex index
    (setTable (tableOf index n)
       (setDst (Some {| ipnet_IP := ipnet_IP (addr_IPNet a);
                        ipnet_Mask := hostMask |}) zeroRoute)).

Definition sameRoute (r r' : Route) : Prop :=
  Dst r = Dst r' ∧ Table r = Table r' ∧ LinkIndex r = LinkIndex r'.

#[export] Instance sameRoute_dec r r' : Decision (sameRoute r r').
Proof. unfold sameRoute. apply _. Defined.

Definition kernel : Handler Netns :=
  fun c =>
    match c return Netns → Resp c * Netns with
    | CLinkByName name => fun n => (lookup (byName name n), n)
    | CLinkByIndex index => fun n => (lookup (byIndex index n), n)
    | CLinkList => fun n => (Ok (links n), n)
    | CAddrList link family => fun n =>
        (Ok (map snd (filter (fun p => p.1 = Index (Attrs link)) (addrs n))), n)
    | CRouteListFiltered family flt mask => fun n =>
        let n' := tick n in
        (Ok (filter (fun r => matchesFilter flt mask r = true) (routes n')), n')
    | CLinkAdd link => fun n =>
        match byName (Name (Attrs link)) n with
        | Some _ => (Some (KernelError EEXIST), n)
        | None => (None, withLinks (links n ++ [setIndex (freshIndex n) link]) n)
        end
    | CLinkSetUp link => fun n =>
        match byName (Name (Attrs link)) n with
        | Some _ => (None, n)
        | None => (Some (KernelError ENODEV), n)
        end
    | CLinkSetMaster link master => fun n =>
        let index := Index (Attrs link) in
        match byIndex index n with
        | None => (Some (KernelError ENODEV), n)
        | Some _ =>
            let ls := map (fun l => if decide (Index (Attrs l) = index)
                                    then setMaster (Index (Attrs master)) l
                                    else l) (links n) in
            let n1 := withLinks ls n in
            if keep_addr_on_down n then (None, n1)
            else
              (None,
               withRoutes (filter (fun r => LinkIndex r ≠ index) (routes n))
                 (withAddrs
                    (filter (fun p => ¬ (p.1 = index ∧
                                         addr_Scope p.2 = netlink.SCOPE_UNIVERSE))
                       (addrs n)) n1))
        end
    | CLinkSetNoMaster link => fun n =>
        let index := Index (Attrs link) in
        (None,
         withLinks (map (fun l => if decide (Index (Attrs l) = index)
                                  then setMaster 0 l else l) (links n)) n)
    | CAddrAdd link addr => fun n =>
        let index := Index (Attrs link) in
        if decide ((index, addr) ∈ addrs n) then (Some (KernelError EEXIST), n)
        else
          (None,
           withPending (pending n ++ [(route_delay n, hostRoute index addr n)])
             (withAddrs (addrs n ++ [(index, addr)]) n))
    | CAddrDel link addr => fun n =>
        (None,
         withAddrs (filter (fun p => p ≠ (Index (Attrs link), addr)) (addrs n)) n)
    | CRouteReplace route => fun n =>
        (None,
         withRoutes (filter (fun r => ¬ sameRoute r route) (routes n) ++ [route]) n)
    | CRouteDel route => fun n =>
        (None, withRoutes (filter (fun r => ¬ sameRoute r route) (routes n)) n)
    | CSleep d => fun n => (tt, withClock (clock n + d) n)
    end.

(* The answer of a call that fails with err; sleeping cannot fail. *)
Definition failure (err : error) (c : Call) : option (Resp c) :=
  match c return option (Resp c) with
  | CLinkByName _ | CLinkByIndex _ => Some (Error err)
  | CLinkList => Some (Error err)
  | CAddrList _ _ => Some (Error err)
  | CRouteListFiltered _ _ _ => Some (Error err)
  | CLinkAdd _ | CLinkSetUp _ | CLinkSetMaster _ _ | CLinkSetNoMaster _
  | CAddrAdd _ _ | CAddrDel _ _ | CRouteReplace _ | CRouteDel _ => Some (Some err)
  | CSleep _ => None
  end.

(* Fault injection: with Some k in the state, the call number k from
   now (counting from 0) fails with err and leaves the kernel state as
   it is; every other call is answered by h. *)
Definition failing {W : Type} (err : error) (h : Handler W)
  : Handler (option nat * W) :=
  fun c '(k, w) =>
    match k with
    | Some O =>
        match failure err c with
        | Some x => (x, (None, w))
        | None => let '(x, w') := h c w in (x, (None, w'))
        end
    | Some (S k') => let '(x, w') := h c w in (x, (Some k', w'))
    | None => let '(x, w') := h c w in (x, (None, w'))
    end.

End Sim.

(* --------------------------------------------------------------------- *)
(* Inputs of the examples                                                *)
(* --------------------------------------------------------------------- *)

(* smallest_free T r: r is the least positive integer outside T. *)
Definition smallest_free (T : list Z) (r : Z) : Prop :=
  1 ≤ r ∧ (r ∉ T) ∧ (∀ t, 1 ≤ t → t ∉ T → r ≤ t).

(* One VRF device for every table from 1 to math.MaxUint32 - 1. *)
Definition crowdedLinks : list Link :=
  (fun t => vrfLink "vrf" t t) <$> seqZ 1 (MaxUint32 - 1).

(* The namespaces the examples run in. *)
Module Fixture.

(* 2001:db8::10 *)
Definition ip10 : IP :=
  [x20; x01; x0d; xb8; x00; x00; x00; x00; x00; x00; x00; x00; x00; x00; x00; x10].
(* 2001:db8::1 *)
Definition ip1 : IP :=
  [x20; x01; x0d; xb8; x00; x00; x00; x00; x00; x00; x00; x00; x00; x00; x00; x01].
(* fe80::1 *)
Definition ipLocal : IP :=
  [xfe; x80; x00; x00; x00; x00; x00; x00; x00; x00; x00; x00; x00; x00; x00; x01].
Definition mask64 : IPMask := (replicate 8 xff ++ replicate 8 x00)%list.

(* 2001:db8::10/64, scope universe *)
Definition global10 : Addr := mkAddr (mkIPNet ip10 mask64) "" 0 0.
(* fe80::1/64, scope link *)
Definition linkLocal : Addr := mkAddr (mkIPNet ipLocal mask64) "" 0 253.

Definition blue : Vrf :=
  {| vrf_LinkAttrs := {| Index := 3; Name := "vrf-blue"; MasterIndex := 0 |};
     vrf_Table := 10 |}.
Definition red : Vrf :=
  {| vrf_LinkAttrs := {| Index := 4; Name := "vrf-red"; MasterIndex := 0 |};
     vrf_Table := 20 |}.
Definition eth1 : Link := device "eth1" 2 0.

(* default via 2001:db8::1 dev eth1 src 2001:db8::10, main table *)
Definition viaGateway : Route :=
  {| LinkIndex := 2; Scope := 0; Dst := None; Src := Some ip10; Gw := Some ip1;
     Protocol := 3; Priority := 1024; Table := Sim.RT_TABLE_MAIN |}.
(* 2001:db8::/64 dev eth1, no source: a connected route *)
Definition connected : Route :=
  {| LinkIndex := 2; Scope := 0; Dst := Some (mkIPNet ip1 mask64); Src := None;
     Gw := None; Protocol := 2; Priority := 256; Table := Sim.RT_TABLE_MAIN |}.

(* eth1 without a master, next to vrf-blue; the kernel drops global
   addresses on enslavement and shows a host route at the third listing
   after the address is added. *)
Definition ns : Sim.Netns :=
  {| Sim.links := [eth1; LinkVrf blue];
     Sim.addrs := [(2, global10); (2, linkLocal)];
     Sim.routes := [viaGateway; connected];
     Sim.pending := [];
     Sim.keep_addr_on_down := false;
     Sim.route_delay := 2;
     Sim.clock := 0 |}.

(* The same namespace with a kernel that never shows the host route
   within the retry budget. *)
Definition nsSlow : Sim.Netns :=
  {| Sim.links := [eth1; LinkVrf blue];
     Sim.addrs := [(2, global10); (2, linkLocal)];
     Sim.routes := [viaGateway; connected];
     Sim.pending := [];
     Sim.keep_addr_on_down := false;
     Sim.route_delay := 100;
     Sim.clock := 0 |}.

(* eth1 already enslaved to vrf-red. *)
Definition nsEnslaved : Sim.Netns :=
  {| Sim.links := [device "eth1" 2 4; LinkVrf blue; LinkVrf red];
     Sim.addrs := [(2, global10)];
     Sim.routes := [];
     Sim.pending := [];
     Sim.keep_addr_on_down := false;
     Sim.route_delay := 0;
     Sim.clock := 0 |}.

(* VRF devices on tables 1 and 3, no vrf-blue. *)
Definition nsTables13 : Sim.Netns :=
  {| Sim.links := [vrfLink "vrf-a" 1 1; device "eth0" 2 0; vrfLink "vrf-b" 3 3];
     Sim.addrs := [];
     Sim.routes := [];
     Sim.pending := [];
     Sim.keep_addr_on_down := false;
     Sim.route_delay := 0;
     Sim.clock := 0 |}.

(* The first namespace with keep_addr_on_down switched on. *)
Definition nsKeep : Sim.Netns :=
  {| Sim.links := [eth1; LinkVrf blue];
     Sim.addrs := [(2, global10); (2, linkLocal)];
     Sim.routes := [viaGateway; connected];
     Sim.pending := [];
     Sim.keep_addr_on_down := true;
     Sim.route_delay := 2;
     Sim.clock := 0 |}.

(* 2001:db8:1::/64 via 2001:db8::1 dev eth1 src 2001:db8::10, main table *)
Definition viaOther : Route :=
  {| LinkIndex := 2; Scope := 0;
     Dst := Some (mkIPNet
                    [x20; x01; x0d; xb8; x00; x01; x00; x00;
                     x00; x00; x00; x00; x00; x00; x00; x00] mask64);
     Src := Some ip10; Gw := Some ip1;
     Protocol := 3; Priority := 1024; Table := Sim.RT_TABLE_MAIN |}.

(* The first namespace with a second route that has a source. *)
Definition nsTwoRoutes : Sim.Netns :=
  {| Sim.links := [eth1; LinkVrf blue];
     Sim.addrs := [(2, global10); (2, linkLocal)];
     Sim.routes := [viaGateway; connected; viaOther];
     Sim.pending := [];
     Sim.keep_addr_on_down := false;
     Sim.route_delay := 2;
     Sim.clock := 0 |}.

End Fixture.

(* The VRF descriptor createVRF builds for a name and a table. *)
Definition vrfDescriptor (name : string) (table : Z) : Vrf :=
  {| vrf_LinkAttrs := {| Index := 0; Name := name; MasterIndex := 0 |};
     vrf_Table := table |}.

(* --------------------------------------------------------------------- *)
(* Shapes of the log of addInterface                                     *)
(* --------------------------------------------------------------------- *)

(* One turn of the retry loop that saw no route and slept. *)
Definition emptyPoll (vrf : Vrf) (i : Link) (toFind : Addr) (retryCount : Z)
  : list Event :=
  [(hostRouteQuery vrf i toFind, RRoutes (Ok []));
   (CSleep (backoffBase * Z.shiftl 1 retryCount), RUnit)].

(* The turns number from, from + 1, ..., from + n - 1. *)
Definition pollsFrom (vrf : Vrf) (i : Link) (toFind : Addr) (from : Z) (n : nat)
  : list Event :=
  concat (emptyPoll vrf i toFind <$> seqZ from (Z.of_nat n)).

Definition polls (vrf : Vrf) (i : Link) (toFind : Addr) (n : nat) : list Event :=
  pollsFrom vrf i toFind 0 n.

(* The durations slept and the route listings asked for, in log order. *)
Definition sleeps (t : list Event) : list Z :=
  omap (fun ev => match ev.1 with CSleep d => Some d | _ => None end) t.

(* The time a log spends asleep, in nanoseconds. *)
Definition totalSleep (t : list Event) : Z := foldr Z.add 0 (sleeps t).

Definition routeQueries (t : list Event) : list Call :=
  omap (fun ev => match ev.1 with
                  | CRouteListFiltered f r m => Some (CRouteListFiltered f r m)
                  | _ => None
                  end) t.

(* What the last listing of a wait makes of it. *)
Definition waitVerdict (vrf : Vrf) (intf : string) (toFind : Addr) (budget n : nat)
    (final : result (list Route)) (res : option error) : Prop :=
  match final with
  | Error err =>
      res = Some (Errorf "failed getting routes for %s table %d for dst %s: %v"
                    [ArgString intf; ArgUint (vrf_Table vrf);
                     ArgIPNet (addr_IPNet toFind); ArgError err])
  | Ok [] =>
      n = budget
      ∧ res = Some (Errorf "failed getting local/host addresses for %s in table %d with dst %s"
                      [ArgString intf; ArgUint (vrf_Table vrf);
                       ArgIPNet (addr_IPNet toFind)])
  | Ok (_ :: _) => res = None
  end.

(* A wait: n turns without a route, then the listing that decides. *)
Definition WaitRun (vrf : Vrf) (i : Link) (intf : string) (toFind : Addr)
    (t : list Event) (res : option error) : Prop :=
  ∃ (n : nat) (final : result (list Route)),
    (n ≤ 8)%nat
    ∧ t = polls vrf i toFind n ++ [(hostRouteQuery vrf i toFind, RRoutes final)]
    ∧ waitVerdict vrf intf toFind 8 n final res.

(* The addresses of the first snapshot that the second one lacks. *)
Definition missingAddresses (Equal : Addr → Addr → bool)
    (beforeAddresses afterAddresses : list Addr) : list Addr :=
  filter (fun toFind => foundIn Equal afterAddresses toFind = false) beforeAddresses.

(* An address added again, with the log of its wait. *)
Definition restoredAddress (i : Link) (entry : Addr * list Event) : list Event :=
  (CAddrAdd i entry.1, RStatus None) :: entry.2.

(* The repair loop: the addresses done, then nothing, a failed AddrAdd or
   a failed wait. *)
Definition RestoreRun (vrf : Vrf) (i : Link) (intf : string)
    (missing : list Addr) (t : list Event) (res : option error) : Prop :=
  ∃ (restored : list (Addr * list Event)) (tail : list Event),
    t = concat (restoredAddress i <$> restored) ++ tail
    ∧ Forall (fun entry => WaitRun vrf i intf entry.1 entry.2 None) restored
    ∧ ((restored.*1 = missing ∧ tail = [] ∧ res = None)
       ∨ (∃ toFind err rest,
            missing = restored.*1 ++ toFind :: rest
            ∧ tail = [(CAddrAdd i toFind, RStatus (Some err))]
            ∧ res = Some (Errorf "could not restore address %s to %s @ %s: %v"
                            [ArgAddr toFind; ArgString intf;
                             ArgString (Name (vrf_LinkAttrs vrf)); ArgError err]))
       ∨ (∃ toFind tw err rest,
            missing = restored.*1 ++ toFind :: rest
            ∧ tail = (CAddrAdd i toFind, RStatus None) :: tw
            ∧ WaitRun vrf i intf toFind tw (Some err)
            ∧ res = Some err)).

(* A route put into the table of the VRF. *)
Definition replaced (vrf : Vrf) (route : Route) : Event :=
  (CRouteReplace (setTable (vrf_Table vrf) route), RStatus None).

(* The replay loop: the routes done, then nothing or a failed replace. *)
Definition ReplayRun (vrf : Vrf) (globalRoutes : list Route)
    (t : list Event) (res : option error) : Prop :=
  (t = replaced vrf <$> globalRoutes ∧ res = None)
  ∨ (∃ done route rest err,
       globalRoutes = done ++ route :: rest
       ∧ t = (replaced vrf <$> done)
             ++ [(CRouteReplace (setTable (vrf_Table vrf) route), RStatus (Some err))]
       ∧ res = Some (Errorf "could not add route '%s': %v"
                       [ArgRoute (setTable (vrf_Table vrf) route); ArgError err])).

(* The routes of the replace calls of a log, with their status. *)
Definition routeReplaces (t : list Event) : list (Route * Reply) :=
  omap (fun ev => match ev.1 with
                  | CRouteReplace r => Some (r, ev.2)
                  | _ => None
                  end) t.

(* The addresses of the AddrAdd calls of a log. *)
Definition addrAdds (t : list Event) : list (Link * Addr) :=
  omap (fun ev => match ev.1 with
                  | CAddrAdd l a => Some (l, a)
                  | _ => None
                  end) t.


(* The error getGlobalAddresses makes of a failed address listing. *)
Definition addrListError (link : Link) (err : error) : error :=
  Errorf "failed getting list of IP addresses for %s: %w"
    [ArgString (Name (Attrs link)); ArgError err].

(* The error addInterface returns for an interface that has a master,
   from the answer to the lookup of that master. *)
Definition masterSetError (intf : string) (m : result Link) : error :=
  match m with
  | Ok master =>
      Errorf "interface %s has already a master set: %s"
        [ArgString intf; ArgString (Name (Attrs master))]
  | Error err =>
      Errorf "interface %s has already a master set, could not retrieve the name: %v"
        [ArgString intf; ArgError err]
  end.

(* The first three calls of an addInterface on an interface without a
   master, and the fourth when it succeeds. *)
Definition snapshots (intf : string) (i : Link) (addrs0 : list Addr)
    (r : list Route) : list Event :=
  [(CLinkByName intf, RLink (Ok i));
   (CAddrList i netlink.FAMILY_V6, RAddrs (Ok addrs0));
   (CRouteListFiltered netlink.FAMILY_ALL (snapshotFilter i) snapshotMask,
    RRoutes (Ok r))].

Definition masterSet (vrf : Vrf) (i : Link) : Event :=
  (CLinkSetMaster i (LinkVrf vrf), RStatus None).

(* Every way addInterface can run: its log and what it returns. *)
Inductive AddInterfaceRun (Equal : Addr → Addr → bool) (vrf : Vrf) (intf : string)
  : list Event → option error → Prop :=
| run_no_link err :
    AddInterfaceRun Equal vrf intf
      [(CLinkByName intf, RLink (Error err))]
      (Some (Errorf "could not get link by name %s" [ArgString intf]))
| run_has_master i m :
    MasterIndex (Attrs i) ≠ 0 →
    AddInterfaceRun Equal vrf intf
      [(CLinkByName intf, RLink (Ok i));
       (CLinkByIndex (MasterIndex (Attrs i)), RLink m)]
      (Some (masterSetError intf m))
| run_before_failed i err :
    MasterIndex (Attrs i) = 0 →
    AddInterfaceRun Equal vrf intf
      [(CLinkByName intf, RLink (Ok i));
       (CAddrList i netlink.FAMILY_V6, RAddrs (Error err))]
      (Some (Errorf "failed getting global ipv6 addresses before slaving interface: %w"
               [ArgError (addrListError i err)]))
| run_routes_failed i addrs0 err :
    MasterIndex (Attrs i) = 0 →
    AddInterfaceRun Equal vrf intf
      [(CLinkByName intf, RLink (Ok i));
       (CAddrList i netlink.FAMILY_V6, RAddrs (Ok addrs0));
       (CRouteListFiltered netlink.FAMILY_ALL (snapshotFilter i) snapshotMask,
        RRoutes (Error err))]
      (Some (Errorf "failed getting all routes for %s" [ArgString intf]))
| run_master_failed i addrs0 r err :
    MasterIndex (Attrs i) = 0 →
    AddInterfaceRun Equal vrf intf
      (snapshots intf i addrs0 r
       ++ [(CLinkSetMaster i (LinkVrf vrf), RStatus (Some err))])
      (Some (Errorf "could not set vrf %s as master of %s: %v"
               [ArgString (Name (vrf_LinkAttrs vrf)); ArgString intf; ArgError err]))
| run_after_failed i addrs0 r err :
    MasterIndex (Attrs i) = 0 →
    AddInterfaceRun Equal vrf intf
      (snapshots intf i addrs0 r
       ++ [masterSet vrf i; (CAddrList i netlink.FAMILY_V6, RAddrs (Error err))])
      (Some (Errorf "failed getting global ipv6 addresses after slaving interface: %w"
               [ArgError (addrListError i err)]))
| run_repair_failed i addrs0 r addrs1 t err :
    MasterIndex (Attrs i) = 0 →
    RestoreRun vrf i intf
      (missingAddresses Equal (globalAddresses addrs0) (globalAddresses addrs1))
      t (Some err) →
    AddInterfaceRun Equal vrf intf
      (snapshots intf i addrs0 r
       ++ [masterSet vrf i; (CAddrList i netlink.FAMILY_V6, RAddrs (Ok addrs1))]
       ++ t)
      (Some err)
| run_replayed i addrs0 r addrs1 t1 t2 res :
    MasterIndex (Attrs i) = 0 →
    RestoreRun vrf i intf
      (missingAddresses Equal (globalAddresses addrs0) (globalAddresses addrs1))
      t1 None →
    ReplayRun vrf (globalRoutesOf r) t2 res →
    AddInterfaceRun Equal vrf intf
      (snapshots intf i addrs0 r
       ++ [masterSet vrf i; (CAddrList i netlink.FAMILY_V6, RAddrs (Ok addrs1))]
       ++ t1 ++ t2)
      res.

(* The calls addInterface makes once the master is set: listings, sleeps,
   addresses added to the interface, routes replaced in the VRF's table. *)
Definition repairCall (vrf : Vrf) (i : Link) (c : Call) : Prop :=
  match c with
  | CAddrList l _ => l = i
  | CRouteListFiltered _ _ _ => True
  | CSleep _ => True
  | CAddrAdd l _ => l = i
  | CRouteReplace route => Table route = vrf_Table vrf
  | _ => False
  end.


(* Every call a program can issue, whatever it is answered, satisfies P. *)
Fixpoint allCalls {A : Type} (P : Call → Prop) (p : Prog A) : Prop :=
  match p with
  | Ret _ => True
  | Vis c k => P c ∧ ∀ x, allCalls P (k x)
  end.

(* The calls that leave the links of a namespace as they are. *)
Definition keepsLinks (c : Call) : Prop :=
  match c with
  | CLinkAdd _ | CLinkSetMaster _ _ | CLinkSetNoMaster _ => False
  | _ => True
  end.

(* ===================================================================== *)
(* Properties                                                            *)
(* ===================================================================== *)

(* --------------------------------------------------------------------- *)
(* The counting loop                                                     *)
(* --------------------------------------------------------------------- *)

Lemma for_count_None {A} (n : positive) (body : Z → option A) lo :
  for_count n body lo = None ↔ ∀ j, lo ≤ j < lo + Z.pos n → body j = None.
Proof.
  revert lo. induction n as [q IH | q IH | ]; intros lo; simpl.
  - destruct (body lo) eqn:Hlo.
    + split; [done |]. intros H. rewrite H in Hlo by lia. done.
    + destruct (for_count q body (lo + 1)) eqn:H1.
      * split; [done |]. intros H.
        assert (for_count q body (lo + 1) = None) as H2
          by (apply IH; intros j Hj; apply H; lia).
        congruence.
      * rewrite IH. pose proof (proj1 (IH _) H1) as H1'. clear H1. rename H1' into H1.
        split.
        -- intros H2 j Hj. destruct (decide (j = lo)) as [-> | ?]; [done |].
           destruct (decide (j < lo + 1 + Z.pos q)); [apply H1 | apply H2]; lia.
        -- intros H j Hj. apply H. lia.
  - destruct (for_count q body lo) eqn:H1.
    + split; [done |]. intros H.
      assert (for_count q body lo = None) as H2
        by (apply IH; intros j Hj; apply H; lia).
      congruence.
    + rewrite IH. pose proof (proj1 (IH _) H1) as H1'. clear H1. rename H1' into H1.
      split.
      * intros H2 j Hj.
        destruct (decide (j < lo + Z.pos q)); [apply H1 | apply H2]; lia.
      * intros H j Hj. apply H. lia.
  - split.
    + intros H j Hj. by replace j with lo by lia.
    + intros H. apply H. lia.
Qed.

Lemma for_count_Some {A} (n : positive) (body : Z → option A) lo a :
  for_count n body lo = Some a →
  ∃ i, lo ≤ i < lo + Z.pos n ∧ body i = Some a ∧
       ∀ j, lo ≤ j < i → body j = None.
Proof.
  revert lo. induction n as [q IH | q IH | ]; intros lo; simpl.
  - destruct (body lo) eqn:Hlo.
    + intros [= ->]. exists lo. split_and!; [lia | lia | done | lia].
    + destruct (for_count q body (lo + 1)) eqn:H1.
      * intros [= ->]. destruct (IH _ H1) as (i & Hi & Hb & Hn).
        exists i. split_and!; [lia | lia | done |].
        intros j Hj. destruct (decide (j = lo)) as [-> | ?]; [done |].
        apply Hn. lia.
      * intros H2. destruct (IH _ H2) as (i & Hi & Hb & Hn).
        exists i. split_and!; [lia | lia | done |].
        intros j Hj. destruct (decide (j = lo)) as [-> | ?]; [done |].
        destruct (decide (j < lo + 1 + Z.pos q)).
        -- eapply for_count_None; [exact H1 | lia].
        -- apply Hn. lia.
  - destruct (for_count q body lo) eqn:H1.
    + intros [= ->]. destruct (IH _ H1) as (i & Hi & Hb & Hn).
      exists i. split_and!; [lia | lia | done | done].
    + intros H2. destruct (IH _ H2) as (i & Hi & Hb & Hn).
      exists i. split_and!; [lia | lia | done |].
      intros j Hj. destruct (decide (j < lo + Z.pos q)).
      * eapply for_count_None; [exact H1 | lia].
      * apply Hn. lia.
  - intros H. exists lo. split_and!; [lia | lia | done | lia].
Qed.

Lemma for_range_None {A} lo hi (body : Z → option A) :
  for_range lo hi body = None ↔ ∀ j, lo ≤ j < hi → body j = None.
Proof.
  unfold for_range. case_decide as Hlt.
  - rewrite for_count_None. rewrite Z2Pos.id by lia.
    split; intros H j Hj; apply H; lia.
  - split; [lia | done].
Qed.

Lemma for_range_Some {A} lo hi (body : Z → option A) a :
  for_range lo hi body = Some a →
  ∃ i, lo ≤ i < hi ∧ body i = Some a ∧ ∀ j, lo ≤ j < i → body j = None.
Proof.
  unfold for_range. case_decide as Hlt; [| done].
  intros (i & Hi & Hb & Hn)%for_count_Some.
  rewrite Z2Pos.id in Hi by lia. exists i. split_and!; [lia | lia | done | done].
Qed.

(* --------------------------------------------------------------------- *)
(* findFreeRoutingTableID                                                *)
(* --------------------------------------------------------------------- *)

Lemma elem_of_takenTables links t :
  t ∈ takenTables links ↔ t ∈ vrfTables links.
Proof.
  unfold takenTables, vrfTables.
  assert (∀ acc : gset Z,
    (t ∈ foldl (fun taken l =>
                  match l with
                  | LinkVrf vrf => {[ vrf_Table vrf ]} ∪ taken
                  | LinkOther _ _ => taken
                  end) acc links)
    ↔ (t ∈ acc ∨
       t ∈ omap (fun l => match l with
                          | LinkVrf v => Some (vrf_Table v)
                          | LinkOther _ _ => None
                          end) links)) as H.
  { induction links as [| [v | k a] links IH]; intros acc; simpl.
    - rewrite elem_of_nil. tauto.
    - rewrite IH, elem_of_union, elem_of_singleton, elem_of_cons. tauto.
    - apply IH. }
  rewrite H. split; [intros [[]%elem_of_empty | ?]; done | by right].
Qed.

Lemma findFree_Ok links res :
  findFreeRoutingTableID links = Ok res →
  1 ≤ res < MaxUint32 ∧ (res ∉ vrfTables links) ∧
  (∀ t, 1 ≤ t < res → t ∈ vrfTables links).
Proof.
  unfold findFreeRoutingTableID.
  destruct (for_range _ _ _) as [r |] eqn:H; [| done].
  intros [= ->]. apply for_range_Some in H as (i & Hi & Hb & Hn).
  case_decide as Hin; [done |]. injection Hb as ->.
  rewrite elem_of_takenTables in Hin. split_and!; [lia | lia | done |].
  intros t Ht. specialize (Hn t Ht). case_decide as Hin'; [| done].
  by apply elem_of_takenTables.
Qed.

Lemma findFree_Error links e :
  findFreeRoutingTableID links = Error e ↔
  e = Errorf "findFreeRoutingTableID: Failed to find an available routing id" []
  ∧ ∀ t, 1 ≤ t < MaxUint32 → t ∈ vrfTables links.
Proof.
  unfold findFreeRoutingTableID.
  destruct (for_range _ _ _) as [r |] eqn:H.
  - split; [done |]. intros [_ Hall].
    apply for_range_Some in H as (i & Hi & Hb & _).
    case_decide as Hin; [done |]. injection Hb as ->.
    rewrite elem_of_takenTables in Hin. destruct Hin. apply Hall. lia.
  - rewrite for_range_None in H. split.
    + intros [= <-]. split; [done |]. intros t Ht. specialize (H t Ht).
      case_decide as Hin; [| done]. by apply elem_of_takenTables.
    + intros [-> _]. done.
Qed.

Lemma takenTables_ext links links' :
  (∀ t, t ∈ vrfTables links ↔ t ∈ vrfTables links') →
  takenTables links = takenTables links'.
Proof.
  intros H. apply set_eq. intros t. rewrite !elem_of_takenTables. apply H.
Qed.

Lemma elem_of_crowded t :
  t ∈ vrfTables crowdedLinks ↔ 1 ≤ t < MaxUint32.
Proof.
  unfold vrfTables, crowdedLinks. rewrite list_elem_of_omap. split.
  - intros (l & (x & -> & Hx)%list_elem_of_fmap & Hl).
    apply elem_of_seqZ in Hx. injection Hl as <-. unfold MaxUint32 in *. lia.
  - intros Ht. exists (vrfLink "vrf" t t). split; [| done].
    apply list_elem_of_fmap. exists t. split; [done |].
    apply elem_of_seqZ. unfold MaxUint32 in *. lia.
Qed.

(** C5 (amended): for every link list whose VRF devices leave at least one
    table ID between 1 and math.MaxUint32 - 1 unused, the allocator
    returns the smallest positive integer that no VRF device uses as its
    table; links that are not VRF devices do not count: two link lists
    with the same VRF tables get the same answer. *)
Theorem findFreeRoutingTableID_smallest_free (links : list Link) :
  (∃ t, 1 ≤ t < MaxUint32 ∧ t ∉ vrfTables links) →
  (∃ res, findFreeRoutingTableID links = Ok res
          ∧ smallest_free (vrfTables links) res)
  ∧ (∀ links', (∀ t, t ∈ vrfTables links ↔ t ∈ vrfTables links') →
               findFreeRoutingTableID links' = findFreeRoutingTableID links).
Proof.
  intros (t0 & Ht0 & Hfree). split.
  - destruct (findFreeRoutingTableID links) as [res | e] eqn:H.
    + exists res. split; [done |].
      apply findFree_Ok in H as (Hres & Hnot & Hbelow).
      split_and!; [lia | done |].
      intros t Ht Hnt. destruct (decide (res ≤ t)); [done |].
      destruct Hnt. apply Hbelow. lia.
    + apply findFree_Error in H as [_ Hall]. destruct Hfree. by apply Hall.
  - intros links' Hsame. unfold findFreeRoutingTableID.
    by rewrite (takenTables_ext links links' Hsame).
Qed.

Lemma findFreeRoutingTableID_smallest_free_witness :
  let links := [vrfLink "vrf-a" 2 1; device "eth0" 3 0; vrfLink "vrf-b" 4 3] in
  findFreeRoutingTableID links = Ok 2
  ∧ ∃ res, findFreeRoutingTableID links = Ok res
           ∧ smallest_free (vrfTables links) res.
Proof.
  intros links. split; [vm_compute; reflexivity |].
  apply (findFreeRoutingTableID_smallest_free links).
  exists 2. split; [unfold MaxUint32; lia |].
  apply (bool_decide_unpack _). vm_compute. exact I.
Defined.

(** C5 (as stated, refuted): with one VRF device on every table from 1 to
    4294967294 the smallest positive integer no VRF uses is 4294967295,
    and the allocator returns its error instead. *)
Lemma findFreeRoutingTableID_crowded :
  smallest_free (vrfTables crowdedLinks) MaxUint32
  ∧ findFreeRoutingTableID crowdedLinks
    = Error (Errorf "findFreeRoutingTableID: Failed to find an available routing id" []).
Proof.
  split.
  - split_and!.
    + unfold MaxUint32. lia.
    + rewrite elem_of_crowded. lia.
    + intros t Ht Hnt. rewrite elem_of_crowded in Hnt. lia.
  - apply findFree_Error. split; [done |]. intros t Ht. by apply elem_of_crowded.
Qed.

(** C6 (amended): the allocator fails exactly when every table ID from 1
    to math.MaxUint32 - 1 is used by a VRF device, and then with its own
    error; what it returns otherwise lies in that range, so neither 0 nor
    math.MaxUint32 is ever allocated. *)
Theorem findFreeRoutingTableID_fails_iff (links : list Link) :
  ((∃ e, findFreeRoutingTableID links = Error e)
   ↔ (∀ t, 1 ≤ t < MaxUint32 → t ∈ vrfTables links))
  ∧ (∀ res, findFreeRoutingTableID links = Ok res → 1 ≤ res < MaxUint32).
Proof.
  split; [split |].
  - intros [e He]. by apply findFree_Error in He as [_ ?].
  - intros Hall. eexists. apply findFree_Error. done.
  - intros res Hres. by apply findFree_Ok in Hres as [? _].
Qed.

(** C6 (as stated, refuted): the allocator fails on a link list that
    leaves the representable table ID 4294967295 free. *)
Lemma findFreeRoutingTableID_fails_with_free_id :
  (∃ e, findFreeRoutingTableID crowdedLinks = Error e)
  ∧ 0 ≤ MaxUint32 ≤ 4294967295
  ∧ MaxUint32 ∉ vrfTables crowdedLinks.
Proof.
  split_and!.
  - eexists. apply findFree_Error. split; [done |].
    intros t Ht. by apply elem_of_crowded.
  - unfold MaxUint32. lia.
  - unfold MaxUint32. lia.
  - rewrite elem_of_crowded. lia.
Qed.

(* --------------------------------------------------------------------- *)
(* Running programs                                                      *)
(* --------------------------------------------------------------------- *)

Lemma run_bind {W A B} (h : Handler W) (p : Prog A) (f : A → Prog B) w :
  run h (p ≫= f) w =
  let o1 := run h p w in
  let o2 := run h (f (returned o1)) (world o1) in
  mkOutcome (returned o2) (world o2) (trace o1 ++ trace o2).
Proof.
  unfold mbind, Prog_bind. revert w.
  induction p as [a | c k IH]; intros w; simpl.
  - by destruct (run h (f a) w).
  - destruct (h c w) as [x w1]. by rewrite IH.
Qed.

Lemma run_Vis {W A} (h : Handler W) c (k : Resp c → Prog A) w :
  run h (Vis c k) w =
  let o := run h (k (h c w).1) (h c w).2 in
  mkOutcome (returned o) (world o) ((c, reply_of c (h c w).1) :: trace o).
Proof. simpl. by destruct (h c w). Qed.

(* --------------------------------------------------------------------- *)
(* findVRF, createVRF, resetMaster                                       *)
(* --------------------------------------------------------------------- *)

(* What LinkAdd of a fresh name leaves in the simulated namespace. *)
Lemma Sim_byName_added (n : Sim.Netns) (l : Link) :
  Sim.byName (Name (Attrs l)) n = None →
  Sim.byName (Name (Attrs l))
    (Sim.withLinks (Sim.links n ++ [Sim.setIndex (Sim.freshIndex n) l]) n)
  = Some (Sim.setIndex (Sim.freshIndex n) l).
Proof.
  unfold Sim.byName. simpl. intros Hnone.
  rewrite filter_app.
  destruct (filter _ (Sim.links n)) as [| x xs]; [| done]. simpl.
  rewrite filter_cons_True; [done |]. by destruct l.
Qed.

(** C8: findVRF fails with the error "Netlink <name> is not a VRF" for
    every link the lookup finds under the name that is not a VRF device,
    returns the VRF unchanged when the link is one, and passes a failed
    lookup on; in the simulated namespace the VRF found under a name that
    createVRF has just created has the table createVRF built it with. *)
Theorem findVRF_type_and_table W (h : Handler W) (w : W) (name : string) :
  (let o := run h (findVRF name) w in
   match h (CLinkByName name) w with
   | (Ok (LinkVrf vrf), _) => returned o = Ok vrf
   | (Ok (LinkOther _ _), _) =>
       returned o = Error (Errorf "Netlink %s is not a VRF" [ArgString name])
   | (Error err, _) => returned o = Error err
   end)
  ∧ (∀ (n : Sim.Netns) (tableID : Z) (vrf : Vrf),
       let created := run Sim.kernel (createVRF name tableID) n in
       returned created = Ok vrf →
       (tableID ≠ 0 → vrf_Table vrf = tableID)
       ∧ ∃ found, returned (run Sim.kernel (findVRF name) (world created)) = Ok found
                  ∧ vrf_Table found = vrf_Table vrf).
Proof.
  split.
  - simpl. destruct (h (CLinkByName name) w) as [[[vrf | k a] | e] w1]; done.
  - intros n tableID vrf. unfold createVRF. simpl.
    destruct (if decide (tableID = 0) then _ else _) as [t | e] eqn:Ht;
      simpl; [| done].
    destruct (Sim.byName name n) eqn:Hname; simpl; [done |].
    pose proof (Sim_byName_added n (LinkVrf (vrfDescriptor name t))) as Hadded.
    simpl in Hadded. specialize (Hadded Hname).
    unfold vrfDescriptor in Hadded. simpl in Hadded.
    rewrite Hadded. simpl. intros [= <-]. simpl. split.
    + intros Hne. case_decide; [done |]. by injection Ht.
    + rewrite Hadded. simpl. eauto.
Qed.

Lemma findVRF_type_and_table_witness :
  returned (run Sim.kernel (findVRF "eth1") Fixture.ns)
  = Error (Errorf "Netlink %s is not a VRF" [ArgString "eth1"])
  ∧ returned (run Sim.kernel (findVRF "vrf-blue") Fixture.ns) = Ok Fixture.blue
  ∧ ∃ found,
      returned (run Sim.kernel (findVRF "vrf-green")
                  (world (run Sim.kernel (createVRF "vrf-green" 7) Fixture.ns)))
      = Ok found ∧ vrf_Table found = 7.
Proof.
  split_and!.
  - exact (proj1 (findVRF_type_and_table _ Sim.kernel Fixture.ns "eth1")).
  - exact (proj1 (findVRF_type_and_table _ Sim.kernel Fixture.ns "vrf-blue")).
  - destruct (proj2 (findVRF_type_and_table _ Sim.kernel Fixture.ns "vrf-green")
                Fixture.ns 7 (vrfDescriptor "vrf-green" 7)) as [_ H].
    + vm_compute. reflexivity.
    + exact H.
Defined.

(** C7: createVRF lists the links of the namespace; with tableID = 0 it
    adds a VRF whose table is the allocator's answer for that list, with
    any other tableID it adds a VRF with that table whatever tables the
    listed VRF devices use; the VRF it returns is the descriptor it
    added. *)
Theorem createVRF_table W (h : Handler W) (w w1 : W) (name : string)
    (tableID : Z) (links : list Link) :
  h CLinkList w = (Ok links, w1) →
  let o := run h (createVRF name tableID) w in
  let adds t :=
    (∃ status rest,
       trace o = (CLinkList, RLinks (Ok links))
                 :: (CLinkAdd (LinkVrf (vrfDescriptor name t)), RStatus status)
                 :: rest)
    ∧ (∀ vrf, returned o = Ok vrf → vrf = vrfDescriptor name t) in
  (tableID = 0 → ∀ t, findFreeRoutingTableID links = Ok t → adds t)
  ∧ (tableID = 0 → ∀ err, findFreeRoutingTableID links = Error err →
       returned o = Error err ∧ trace o = [(CLinkList, RLinks (Ok links))])
  ∧ (tableID ≠ 0 → adds tableID).
Proof.
  intros Hlist o adds.
  assert (∀ choice,
            (if decide (tableID = 0) then findFreeRoutingTableID links
             else Ok tableID) = choice →
            match choice with
            | Ok t => adds t
            | Error err =>
                returned o = Error err
                ∧ trace o = [(CLinkList, RLinks (Ok links))]
            end) as Hrun.
  { intros choice Hchoice. subst adds o.
    unfold createVRF, netlinksafe.LinkList, call.
    rewrite run_bind, run_Vis, Hlist.
    cbn [fst snd returned world trace run bind mbind Prog_bind].
    rewrite Hchoice. destruct choice as [t | err]; [| done].
    simpl. fold (vrfDescriptor name t).
    destruct (h (CLinkAdd _) w1) as [[e1 |] w2]; simpl.
    - split; [eauto | done].
    - destruct (h (CLinkSetUp _) w2) as [[e2 |] w3]; simpl.
      + split; [eauto | done].
      + split; [eauto |]. by intros vrf [= <-]. }
  split_and!.
  - intros Hz t Ht. apply (Hrun (Ok t)). by rewrite decide_True.
  - intros Hz err Herr. apply (Hrun (Error err)). by rewrite decide_True.
  - intros Hne. apply (Hrun (Ok tableID)). by rewrite decide_False.
Qed.

Lemma createVRF_table_witness :
  let o := run Sim.kernel (createVRF "vrf-blue" 0) Fixture.nsTables13 in
  let o1 := run Sim.kernel (createVRF "vrf-blue" 1) Fixture.nsTables13 in
  (returned o = Ok (vrfDescriptor "vrf-blue" 2)
   ∧ ∀ vrf, returned o = Ok vrf → vrf = vrfDescriptor "vrf-blue" 2)
  ∧ (returned o1 = Ok (vrfDescriptor "vrf-blue" 1)
     ∧ 1 ∈ vrfTables (Sim.links Fixture.nsTables13)
     ∧ ∀ vrf, returned o1 = Ok vrf → vrf = vrfDescriptor "vrf-blue" 1).
Proof.
  intros o o1. split; [split | split_and!].
  - vm_compute. reflexivity.
  - refine (proj2 (proj1 (createVRF_table _ Sim.kernel Fixture.nsTables13
                            Fixture.nsTables13 "vrf-blue" 0
                            (Sim.links Fixture.nsTables13) _) _ 2 _)).
    + reflexivity.
    + reflexivity.
    + vm_compute. reflexivity.
  - vm_compute. reflexivity.
  - apply (bool_decide_unpack _). vm_compute. exact I.
  - refine (proj2 (proj2 (proj2 (createVRF_table _ Sim.kernel Fixture.nsTables13
                            Fixture.nsTables13 "vrf-blue" 1
                            (Sim.links Fixture.nsTables13) _)) _)).
    + reflexivity.
    + lia.
Defined.

(** C9 (amended): resetMaster looks the interface up by name and clears
    its master; when the lookup fails it makes no further call and
    returns a new error that names the interface, when clearing the
    master fails it returns another new error that names the interface;
    neither error carries the failure the kernel reported, and no call is
    repeated. *)
Theorem resetMaster_errors_name_interface W (h : Handler W) (w : W)
    (interfaceName : string) :
  let o := run h (resetMaster interfaceName) w in
  match h (CLinkByName interfaceName) w with
  | (Error err, w1) =>
      returned o = Some (Errorf "resetMaster: could not get link by name %s"
                           [ArgString interfaceName])
      ∧ trace o = [(CLinkByName interfaceName, RLink (Error err))]
      ∧ world o = w1
  | (Ok intf, w1) =>
      match h (CLinkSetNoMaster intf) w1 with
      | (status, w2) =>
          returned o
          = match status with
            | Some _ => Some (Errorf "resetMaster: could reset master to %s"
                                [ArgString interfaceName])
            | None => None
            end
          ∧ trace o = [(CLinkByName interfaceName, RLink (Ok intf));
                       (CLinkSetNoMaster intf, RStatus status)]
          ∧ world o = w2
      end
  end.
Proof.
  simpl. destruct (h (CLinkByName interfaceName) w) as [[intf | err] w1]; simpl.
  - destruct (h (CLinkSetNoMaster intf) w1) as [[err |] w2]; done.
  - done.
Qed.

(** C9 (as stated, refuted): the lookup of eth9 fails with ENODEV, and
    what resetMaster returns is neither that failure nor an error that
    mentions it. *)
Lemma resetMaster_drops_cause :
  let o := run Sim.kernel (resetMaster "eth9") Fixture.ns in
  (Sim.kernel (CLinkByName "eth9") Fixture.ns).1 = Error (KernelError Sim.ENODEV)
  ∧ returned o ≠ Some (KernelError Sim.ENODEV)
  ∧ ∃ err, returned o = Some err
           ∧ names err (ArgString "eth9")
           ∧ ¬ names err (ArgError (KernelError Sim.ENODEV)).
Proof.
  split_and!.
  - reflexivity.
  - vm_compute. discriminate.
  - eexists. split_and!.
    + vm_compute. reflexivity.
    + simpl. apply list_elem_of_here.
    + simpl. intros H. apply list_elem_of_singleton in H. discriminate.
Qed.

(* --------------------------------------------------------------------- *)
(* The retry loop                                                        *)
(* --------------------------------------------------------------------- *)

Lemma run_waitFrom {W} (h : Handler W) vrf i intf toFind :
  ∀ (m : nat) (s : Z) (w : W),
    s + Z.of_nat m = maxRetries →
    let o := run h (waitForHostRoute vrf i intf toFind (seqZ s (Z.of_nat (S m)))) w in
    ∃ (n : nat) (final : result (list Route)),
      (n ≤ m)%nat
      ∧ trace o = pollsFrom vrf i toFind s n
                  ++ [(hostRouteQuery vrf i toFind, RRoutes final)]
      ∧ waitVerdict vrf intf toFind m n final (returned o).
Proof.
  induction m as [| m IH]; intros s w Hs.
  - assert (s = maxRetries) as -> by lia.
    change (seqZ maxRetries (Z.of_nat 1)) with [maxRetries].
    cbn [waitForHostRoute]. unfold netlinksafe.RouteListFiltered, call.
    rewrite run_bind, run_Vis.
    fold (hostRouteQuery vrf i toFind).
    destruct (h (hostRouteQuery vrf i toFind) w) as [[[| rt rs] | err] w1];
      cbn [fst snd returned world trace run bind mbind Prog_bind].
    + rewrite decide_False by (simpl; lia). rewrite decide_True by done.
      exists 0%nat, (Ok []). split_and!; first [lia | done | by split].
    + rewrite decide_True by (cbn [length]; lia).
      exists 0%nat, (Ok (rt :: rs)). split_and!; first [lia | done].
    + exists 0%nat, (Error err). split_and!; first [lia | done].
  - rewrite seqZ_cons by lia.
    replace (Z.pred (Z.of_nat (S (S m)))) with (Z.of_nat (S m)) by lia.
    cbn [waitForHostRoute]. unfold netlinksafe.RouteListFiltered, call.
    rewrite run_bind, run_Vis.
    fold (hostRouteQuery vrf i toFind).
    destruct (h (hostRouteQuery vrf i toFind) w) as [[[| rt rs] | err] w1];
      cbn [fst snd returned world trace run bind mbind Prog_bind].
    + rewrite decide_False by (simpl; lia).
      rewrite decide_False by lia.
      unfold time.Sleep, call. rewrite run_bind, run_Vis.
      destruct (h (CSleep (backoffBase * Z.shiftl 1 s)) w1) as [[] w2].
      cbn [fst snd returned world trace run bind mbind Prog_bind].
      destruct (IH (Z.succ s) w2) as (n & final & Hn & Ht & Hv); [lia |].
      exists (S n), final. split_and!; [lia | |].
      * rewrite Ht. unfold pollsFrom.
        rewrite (seqZ_cons s (Z.of_nat (S n))) by lia.
        replace (Z.pred (Z.of_nat (S n))) with (Z.of_nat n) by lia.
        done.
      * destruct final as [[| ? ?] | ?]; simpl in *; [| done | done].
        destruct Hv as [-> ?]. done.
    + rewrite decide_True by (cbn [length]; lia).
      exists 0%nat, (Ok (rt :: rs)). split_and!; first [lia | done].
    + exists 0%nat, (Error err). split_and!; first [lia | done].
Qed.

Lemma run_waitForHostRoute {W} (h : Handler W) vrf i intf toFind (w : W) :
  let o := run h (waitForHostRoute vrf i intf toFind retryCounts) w in
  WaitRun vrf i intf toFind (trace o) (returned o).
Proof.
  destruct (run_waitFrom h vrf i intf toFind 8 0 w) as (n & final & Hn & Ht & Hv);
    [done |].
  exists n, final. done.
Qed.

Lemma sleeps_pollsFrom vrf i toFind s n :
  sleeps (pollsFrom vrf i toFind s n)
  = (fun k => backoffBase * Z.shiftl 1 k) <$> seqZ s (Z.of_nat n).
Proof.
  revert s. induction n as [| n IH]; intros s; [done |].
  unfold pollsFrom in *. rewrite seqZ_cons by lia.
  replace (Z.pred (Z.of_nat (S n))) with (Z.of_nat n) by lia.
  rewrite !fmap_cons. simpl. unfold sleeps in *. simpl. by rewrite IH.
Qed.

Lemma routeQueries_pollsFrom vrf i toFind s n :
  routeQueries (pollsFrom vrf i toFind s n) = replicate n (hostRouteQuery vrf i toFind).
Proof.
  revert s. induction n as [| n IH]; intros s; [done |].
  unfold pollsFrom in *. rewrite seqZ_cons by lia.
  replace (Z.pred (Z.of_nat (S n))) with (Z.of_nat n) by lia.
  rewrite !fmap_cons. simpl. unfold routeQueries in *. simpl. by rewrite IH.
Qed.

(** C2: the wait for one restored address lists routes at most nine
    times, always with the same query (destination the address under the
    sixteen-byte all-ones mask, table of the VRF, link index of the
    interface, filtered on exactly these three), and sleeps 10, 20, 40,
    ..., 1280 ms between consecutive listings; it ends without error at
    the first listing that shows a route, and when the ninth listing shows
    none it returns an error naming the interface, the table and the
    destination. *)
Theorem waitForHostRoute_backoff W (h : Handler W) (w : W) (vrf : Vrf) (i : Link)
    (intf : string) (toFind : Addr) :
  let o := run h (waitForHostRoute vrf i intf toFind retryCounts) w in
  let query := hostRouteQuery vrf i toFind in
  (∃ (n : nat) (final : result (list Route)),
     (n ≤ 8)%nat
     ∧ trace o = polls vrf i toFind n ++ [(query, RRoutes final)]
     ∧ routeQueries (trace o) = replicate (S n) query
     ∧ sleeps (trace o)
       = take n ((fun ms => ms * time.Millisecond)
                   <$> [10; 20; 40; 80; 160; 320; 640; 1280])
     ∧ match final with
       | Ok (_ :: _) => returned o = None
       | Ok [] =>
           n = 8%nat
           ∧ ∃ err, returned o = Some err
                    ∧ names err (ArgString intf)
                    ∧ names err (ArgUint (vrf_Table vrf))
                    ∧ names err (ArgIPNet (addr_IPNet toFind))
       | Error err => ∃ err', returned o = Some err' ∧ names err' (ArgError err)
       end)
  ∧ query = CRouteListFiltered netlink.FAMILY_ALL (hostRouteFilter vrf i toFind)
              hostRouteMask
  ∧ Dst (hostRouteFilter vrf i toFind)
    = Some {| ipnet_IP := ipnet_IP (addr_IPNet toFind);
              ipnet_Mask := replicate 16 xff |}
  ∧ Table (hostRouteFilter vrf i toFind) = vrf_Table vrf
  ∧ LinkIndex (hostRouteFilter vrf i toFind) = Index (Attrs i)
  ∧ hostRouteMask
    = Z.lor (Z.lor netlink.RT_FILTER_OIF netlink.RT_FILTER_TABLE) netlink.RT_FILTER_DST.
Proof.
  intros o query. split; [| done].
  destruct (run_waitForHostRoute h vrf i intf toFind w) as (n & final & Hn & Ht & Hv).
  fold o in Ht, Hv. exists n, final. split_and!; [done | done | | |].
  - rewrite Ht. unfold routeQueries. rewrite omap_app.
    fold (routeQueries (polls vrf i toFind n)). unfold polls.
    rewrite routeQueries_pollsFrom, replicate_S_end. done.
  - rewrite Ht. unfold sleeps. rewrite omap_app.
    fold (sleeps (polls vrf i toFind n)). unfold polls.
    rewrite sleeps_pollsFrom. simpl. rewrite app_nil_r.
    clear -Hn. do 9 (destruct n as [| n]; [reflexivity |]). lia.
  - unfold waitVerdict in Hv. destruct final as [[| rt rs] | err].
    + destruct Hv as [-> Hres]. split; [done |]. eexists. split; [exact Hres |].
      simpl. rewrite !elem_of_cons. tauto.
    + done.
    + eexists. split; [exact Hv |]. simpl. rewrite !elem_of_cons. tauto.
Qed.

(* --------------------------------------------------------------------- *)
(* The loops of addInterface and its runs                                *)
(* --------------------------------------------------------------------- *)

Lemma run_getGlobalAddresses {W} (h : Handler W) link family (w : W) :
  run h (getGlobalAddresses link family) w
  = mkOutcome
      (match (h (CAddrList link family) w).1 with
       | Ok addresses => Ok (globalAddresses addresses)
       | Error err => Error (addrListError link err)
       end)
      (h (CAddrList link family) w).2
      [(CAddrList link family, RAddrs (h (CAddrList link family) w).1)].
Proof.
  unfold getGlobalAddresses, netlinksafe.AddrList, call.
  rewrite run_bind, run_Vis.
  destruct (h (CAddrList link family) w) as [[addresses | err] w1]; done.
Qed.

Lemma run_restoreAddresses {W} (h : Handler W) Equal vrf i intf afterAddresses :
  ∀ beforeAddresses (w : W),
    let o := run h (restoreAddresses Equal vrf i intf afterAddresses
                      beforeAddresses) w in
    RestoreRun vrf i intf (missingAddresses Equal beforeAddresses afterAddresses)
      (trace o) (returned o).
Proof.
  induction beforeAddresses as [| toFind rest IH]; intros w.
  - exists [], []. split_and!; [done | constructor | by left].
  - cbn [restoreAddresses]. unfold missingAddresses. rewrite filter_cons.
    fold (missingAddresses Equal rest afterAddresses).
    destruct (foundIn Equal afterAddresses toFind) eqn:Hfound.
    { rewrite decide_False by done. apply IH. }
    rewrite decide_True by done.
    unfold netlink.AddrAdd, call. rewrite run_bind, run_Vis.
    destruct (h (CAddrAdd i toFind) w) as [[err |] w1];
      cbn [fst snd returned world trace run bind mbind Prog_bind].
    { exists [], [(CAddrAdd i toFind, RStatus (Some err))].
      split_and!; [done | constructor |].
      right; left. by exists toFind, err, (missingAddresses Equal rest afterAddresses). }
    rewrite run_bind.
    pose proof (run_waitForHostRoute h vrf i intf toFind w1) as Hwait.
    destruct (run h (waitForHostRoute vrf i intf toFind retryCounts) w1)
      as [wres w2 tw].
    cbn [returned world trace] in *.
    destruct wres as [err |].
    { exists [], ((CAddrAdd i toFind, RStatus None) :: tw).
      split_and!; [by rewrite app_nil_r | constructor |].
      right; right.
      by exists toFind, tw, err, (missingAddresses Equal rest afterAddresses). }
    specialize (IH w2).
    destruct IH as (restored & tail & Ht & Hall & Hcases).
    exists ((toFind, tw) :: restored), tail. split_and!.
    + rewrite Ht. rewrite fmap_cons. simpl. by rewrite <- app_assoc.
    + by constructor.
    + destruct Hcases as [(Hm & -> & Hres) | [Hcase | Hcase]].
      * left. rewrite fmap_cons. simpl. by rewrite Hm.
      * right; left. destruct Hcase as (a & err & rest' & Hm & Htail & Hres).
        exists a, err, rest'. rewrite fmap_cons. simpl. by rewrite Hm.
      * right; right. destruct Hcase as (a & tw' & err & rest' & Hm & Htail & Hw & Hres).
        exists a, tw', err, rest'. rewrite fmap_cons. simpl. by rewrite Hm.
Qed.

Lemma run_replayRoutes {W} (h : Handler W) vrf :
  ∀ globalRoutes (w : W),
    let o := run h (replayRoutes vrf globalRoutes) w in
    ReplayRun vrf globalRoutes (trace o) (returned o).
Proof.
  induction globalRoutes as [| route rest IH]; intros w.
  - by left.
  - cbn [replayRoutes]. unfold netlink.RouteReplace, call.
    rewrite run_bind, run_Vis.
    destruct (h (CRouteReplace (setTable (vrf_Table vrf) route)) w) as [[err |] w1];
      cbn [fst snd returned world trace run bind mbind Prog_bind].
    + right. by exists [], route, rest, err.
    + destruct (IH w1) as [[Ht Hres] | (done & rt & rest' & err & Hg & Ht & Hres)].
      * left. by rewrite Ht, fmap_cons.
      * right. exists (route :: done), rt, rest', err.
        split_and!; [by rewrite Hg | by rewrite Ht, fmap_cons | done].
Qed.

Lemma addInterface_runs {W} (h : Handler W) Equal vrf intf (w : W) :
  let o := run h (addInterface Equal vrf intf) w in
  AddInterfaceRun Equal vrf intf (trace o) (returned o).
Proof.
  unfold addInterface, netlinksafe.LinkByName, call.
  rewrite run_bind, run_Vis.
  destruct (h (CLinkByName intf) w) as [[i | err] w1];
    cbn [fst snd returned world trace run bind mbind Prog_bind];
    [| apply run_no_link].
  case_decide as Hmaster.
  { unfold netlink.LinkByIndex, call. rewrite run_bind, run_Vis.
    destruct (h (CLinkByIndex (MasterIndex (Attrs i))) w1) as [[master | err] w2];
      cbn [fst snd returned world trace run bind mbind Prog_bind].
    - by apply (run_has_master Equal vrf intf i (Ok master)).
    - by apply (run_has_master Equal vrf intf i (Error err)). }
  assert (MasterIndex (Attrs i) = 0) as Hfree by lia.
  rewrite run_bind, run_getGlobalAddresses.
  destruct (h (CAddrList i netlink.FAMILY_V6) w1) as [[addrs0 | err] w2];
    cbn [fst snd returned world trace run bind mbind Prog_bind app];
    [| by apply run_before_failed].
  unfold netlinksafe.RouteListFiltered, call. rewrite run_bind, run_Vis.
  destruct (h (CRouteListFiltered netlink.FAMILY_ALL (snapshotFilter i) snapshotMask) w2)
    as [[r | err] w3];
    cbn [fst snd returned world trace run bind mbind Prog_bind app];
    [| by apply run_routes_failed].
  unfold netlink.LinkSetMaster, call. rewrite run_bind, run_Vis.
  destruct (h (CLinkSetMaster i (LinkVrf vrf)) w3) as [[err |] w4];
    cbn [fst snd returned world trace run bind mbind Prog_bind app];
    [by apply (run_master_failed Equal vrf intf i addrs0 r err) |].
  rewrite run_bind, run_getGlobalAddresses.
  destruct (h (CAddrList i netlink.FAMILY_V6) w4) as [[addrs1 | err] w5];
    cbn [fst snd returned world trace run bind mbind Prog_bind app];
    [| by apply (run_after_failed Equal vrf intf i addrs0 r err)].
  rewrite run_bind.
  pose proof (run_restoreAddresses h Equal vrf i intf (globalAddresses addrs1)
                (globalAddresses addrs0) w5) as Hrestore.
  destruct (run h (restoreAddresses Equal vrf i intf (globalAddresses addrs1)
                     (globalAddresses addrs0)) w5) as [eres w6 t1].
  cbn [returned world trace] in *.
  destruct eres as [err |].
  { cbn [fst snd returned world trace run bind mbind Prog_bind app].
    rewrite app_nil_r.
    by apply (run_repair_failed Equal vrf intf i addrs0 r addrs1 t1 err). }
  pose proof (run_replayRoutes h vrf (globalRoutesOf r) w6) as Hreplay.
  destruct (run h (replayRoutes vrf (globalRoutesOf r)) w6) as [res w7 t2].
  cbn [returned world trace] in *.
  by apply (run_replayed Equal vrf intf i addrs0 r addrs1 t1 t2 res).
Qed.

(* --------------------------------------------------------------------- *)
(* What the logs of the loops contain                                    *)
(* --------------------------------------------------------------------- *)

Lemma omap_None_Forall {A B} (f : A → option B) (l : list A) :
  Forall (fun x => f x = None) l → omap f l = [].
Proof. induction 1 as [| x l Hx _ IH]; [done |]. simpl. by rewrite Hx. Qed.

Lemma pollsFrom_Forall (P : Event → Prop) vrf i toFind :
  (∀ rep, P (hostRouteQuery vrf i toFind, RRoutes rep)) →
  (∀ d, P (CSleep d, RUnit)) →
  ∀ n s, Forall P (pollsFrom vrf i toFind s n).
Proof.
  intros Hq Hs. induction n as [| n IH]; intros s; [constructor |].
  unfold pollsFrom in *. rewrite seqZ_cons by lia.
  replace (Z.pred (Z.of_nat (S n))) with (Z.of_nat n) by lia.
  rewrite fmap_cons. simpl. repeat constructor; [apply Hq | apply Hs | apply IH].
Qed.

Lemma WaitRun_Forall (P : Event → Prop) vrf i intf toFind tw res :
  (∀ rep, P (hostRouteQuery vrf i toFind, RRoutes rep)) →
  (∀ d, P (CSleep d, RUnit)) →
  WaitRun vrf i intf toFind tw res → Forall P tw.
Proof.
  intros Hq Hs (n & final & _ & -> & _). apply Forall_app. split.
  - by apply pollsFrom_Forall.
  - repeat constructor. apply Hq.
Qed.

Lemma RestoreRun_Forall (P : Event → Prop) vrf i intf missing t res :
  (∀ a st, P (CAddrAdd i a, RStatus st)) →
  (∀ a rep, P (hostRouteQuery vrf i a, RRoutes rep)) →
  (∀ d, P (CSleep d, RUnit)) →
  RestoreRun vrf i intf missing t res → Forall P t.
Proof.
  intros Ha Hq Hs (restored & tail & -> & Hall & Hcases).
  apply Forall_app. split.
  - clear Hcases. induction Hall as [| [a tw] restored Hw _ IH]; [constructor |].
    rewrite fmap_cons. simpl. constructor; [apply Ha |].
    apply Forall_app. split; [| exact IH].
    eapply WaitRun_Forall; [apply Hq | apply Hs | exact Hw].
  - destruct Hcases as [(_ & -> & _) | [Hc | Hc]].
    + constructor.
    + destruct Hc as (a & err & rest & _ & -> & _). repeat constructor. apply Ha.
    + destruct Hc as (a & tw & err & rest & _ & -> & Hw & _).
      constructor; [apply Ha |].
      eapply WaitRun_Forall; [apply Hq | apply Hs | exact Hw].
Qed.

Lemma ReplayRun_Forall (P : Event → Prop) vrf globalRoutes t res :
  (∀ route st, P (CRouteReplace (setTable (vrf_Table vrf) route), RStatus st)) →
  ReplayRun vrf globalRoutes t res → Forall P t.
Proof.
  intros Hr [[-> _] | (done & route & rest & err & _ & -> & _)].
  - apply Forall_fmap, Forall_forall. intros route _. apply Hr.
  - apply Forall_app. split.
    + apply Forall_fmap, Forall_forall. intros rt _. apply Hr.
    + repeat constructor. apply Hr.
Qed.

Lemma addrAdds_app (t1 t2 : list Event) :
  addrAdds (t1 ++ t2) = addrAdds t1 ++ addrAdds t2.
Proof. apply omap_app. Qed.


Lemma routeReplaces_app (t1 t2 : list Event) :
  routeReplaces (t1 ++ t2) = routeReplaces t1 ++ routeReplaces t2.
Proof. apply omap_app. Qed.

Lemma routeReplaces_RestoreRun vrf i intf missing t res :
  RestoreRun vrf i intf missing t res → routeReplaces t = [].
Proof.
  intros Hrun. apply omap_None_Forall.
  eapply RestoreRun_Forall; [| | | exact Hrun]; done.
Qed.

Lemma addrAdds_WaitRun vrf i intf toFind tw res :
  WaitRun vrf i intf toFind tw res → addrAdds tw = [].
Proof.
  intros Hrun. apply omap_None_Forall.
  eapply WaitRun_Forall; [| | exact Hrun]; done.
Qed.

Lemma addrAdds_ReplayRun vrf globalRoutes t res :
  ReplayRun vrf globalRoutes t res → addrAdds t = [].
Proof.
  intros Hrun. apply omap_None_Forall.
  eapply ReplayRun_Forall; [| exact Hrun]; done.
Qed.

Lemma addrAdds_restored vrf i intf (restored : list (Addr * list Event)) :
  Forall (fun entry => WaitRun vrf i intf entry.1 entry.2 None) restored →
  addrAdds (concat (restoredAddress i <$> restored))
  = (fun a => (i, a)) <$> restored.*1.
Proof.
  induction 1 as [| [a tw] restored Hw _ IH]; [done |].
  apply addrAdds_WaitRun in Hw. simpl in Hw.
  rewrite !fmap_cons. simpl. unfold addrAdds in *. simpl.
  by rewrite omap_app, IH, Hw.
Qed.

Lemma routeReplaces_replaced vrf (routes : list Route) :
  routeReplaces (replaced vrf <$> routes)
  = (fun route => (setTable (vrf_Table vrf) route, RStatus None)) <$> routes.
Proof.
  induction routes as [| route routes IH]; [done |].
  rewrite !fmap_cons. change (routeReplaces (replaced vrf route :: (replaced vrf <$> routes)))
    with ((setTable (vrf_Table vrf) route, RStatus None)
          :: routeReplaces (replaced vrf <$> routes)).
  by rewrite IH.
Qed.

(* --------------------------------------------------------------------- *)
(* addInterface                                                          *)
(* --------------------------------------------------------------------- *)

(** C4 (amended): when the interface addInterface looks up already has a
    non-zero master index, addInterface makes exactly one more call, the
    lookup of that master by index, makes no call that changes kernel
    state, and fails with an error that names the interface and, when the
    master was found, the master's name; when the lookup of the master
    fails the error carries that failure instead of a name. *)
Theorem addInterface_rejects_enslaved W (h : Handler W) (w w1 : W)
    (Equal : Addr → Addr → bool) (vrf : Vrf) (intf : string) (i : Link) :
  h (CLinkByName intf) w = (Ok i, w1) →
  MasterIndex (Attrs i) ≠ 0 →
  let o := run h (addInterface Equal vrf intf) w in
  let m := (h (CLinkByIndex (MasterIndex (Attrs i))) w1).1 in
  trace o = [(CLinkByName intf, RLink (Ok i));
             (CLinkByIndex (MasterIndex (Attrs i)), RLink m)]
  ∧ Forall (fun ev => mutates ev.1 = false) (trace o)
  ∧ ∃ err, returned o = Some err
           ∧ names err (ArgString intf)
           ∧ match m with
             | Ok master => names err (ArgString (Name (Attrs master)))
             | Error cause => names err (ArgError cause)
             end.
Proof.
  intros Hlookup Hmaster o m.
  assert (trace o = [(CLinkByName intf, RLink (Ok i));
                     (CLinkByIndex (MasterIndex (Attrs i)), RLink m)]
          ∧ returned o = Some (masterSetError intf m)) as [Ht Hres].
  { subst o m. unfold addInterface, netlinksafe.LinkByName, call.
    rewrite run_bind, run_Vis, Hlookup.
    cbn [fst snd returned world trace run bind mbind Prog_bind].
    rewrite decide_True by done.
    unfold netlink.LinkByIndex, call. rewrite run_bind, run_Vis.
    destruct (h (CLinkByIndex (MasterIndex (Attrs i))) w1) as [[master | err] w2];
      done. }
  split_and!; [done | |].
  - rewrite Ht. by repeat constructor.
  - exists (masterSetError intf m). split; [done |].
    destruct m as [master | cause]; simpl; rewrite !elem_of_cons; tauto.
Qed.

Lemma addInterface_rejects_enslaved_witness :
  let o := run Sim.kernel (addInterface addrEqual Fixture.blue "eth1")
             Fixture.nsEnslaved in
  Forall (fun ev => mutates ev.1 = false) (trace o)
  ∧ returned o = Some (Errorf "interface %s has already a master set: %s"
                         [ArgString "eth1"; ArgString "vrf-red"]).
Proof.
  intros o.
  destruct (addInterface_rejects_enslaved _ Sim.kernel Fixture.nsEnslaved
              Fixture.nsEnslaved addrEqual Fixture.blue "eth1" (device "eth1" 2 4))
    as (_ & Hmut & _).
  - reflexivity.
  - simpl. lia.
  - split; [exact Hmut | vm_compute; reflexivity].
Defined.

(** C4 (as stated, refuted): eth1 is enslaved to vrf-red and the lookup
    of the master by index fails; the error addInterface returns does not
    name vrf-red. *)
Lemma addInterface_enslaved_master_unnamed :
  let o := run (Sim.failing (KernelError 12) Sim.kernel)
             (addInterface addrEqual Fixture.blue "eth1")
             (Some 1%nat, Fixture.nsEnslaved) in
  Sim.byName "eth1" Fixture.nsEnslaved = Some (device "eth1" 2 4)
  ∧ Sim.byIndex 4 Fixture.nsEnslaved = Some (LinkVrf Fixture.red)
  ∧ ∃ err, returned o = Some err ∧ ¬ names err (ArgString "vrf-red").
Proof.
  split_and!; [reflexivity | reflexivity |].
  eexists. split; [vm_compute; reflexivity |].
  simpl. rewrite !elem_of_cons, elem_of_nil. intros [H | [H | []]]; discriminate.
Qed.



Lemma filter_ext_Forall {A} (P Q : A → Prop) `{∀ x, Decision (P x)}
    `{∀ x, Decision (Q x)} (l : list A) :
  Forall (fun x => P x ↔ Q x) l → filter P l = filter Q l.
Proof.
  induction 1 as [| x l Hx _ IH]; [done |].
  rewrite !filter_cons, IH. destruct (decide (P x)), (decide (Q x)); tauto.
Qed.

(** C3: the route snapshot asks for the routes with the link index of the
    interface and universe scope, and addInterface keeps those of the
    answer that have a source.  When the answer honours the filter these
    are exactly its routes with that link index, universe scope and a
    source.  Every run that has taken the snapshot either ends on a
    failed master-set, a failed second address snapshot or a failed
    repair and then replaces no route, or reaches the replay; the replay
    replaces the kept routes in their order, each with its table set to
    the VRF's table and every other field as captured, either all of them
    and addInterface returns without error, or up to the first replace
    that fails, which is the last call and whose error is returned.  A
    route without source or with another scope is never replaced. *)
Theorem addInterface_replays_routes W (h : Handler W) (w : W)
    (Equal : Addr → Addr → bool) (vrf : Vrf) (intf : string) (i : Link)
    (addrs0 : list Addr) (r : list Route) (rest : list Event) :
  let o := run h (addInterface Equal vrf intf) w in
  trace o = snapshots intf i addrs0 r ++ rest →
  Forall (fun route => LinkIndex route = Index (Attrs i)
                       ∧ Scope route = netlink.SCOPE_UNIVERSE) r →
  let captured := globalRoutesOf r in
  let table := vrf_Table vrf in
  let ok := fun route => (setTable table route, RStatus None) in
  (LinkIndex (snapshotFilter i) = Index (Attrs i)
   ∧ Scope (snapshotFilter i) = netlink.SCOPE_UNIVERSE
   ∧ snapshotMask = Z.lor netlink.RT_FILTER_OIF netlink.RT_FILTER_SCOPE)
  ∧ captured
    = filter (fun route => LinkIndex route = Index (Attrs i)
                           ∧ Scope route = netlink.SCOPE_UNIVERSE
                           ∧ is_Some (Src route)) r
  ∧ ((routeReplaces rest = []
      ∧ ((∃ err,
            rest = [(CLinkSetMaster i (LinkVrf vrf), RStatus (Some err))]
            ∧ returned o
              = Some (Errorf "could not set vrf %s as master of %s: %v"
                        [ArgString (Name (vrf_LinkAttrs vrf)); ArgString intf;
                         ArgError err]))
         ∨ (∃ err,
              rest = [masterSet vrf i;
                      (CAddrList i netlink.FAMILY_V6, RAddrs (Error err))]
              ∧ returned o
                = Some (Errorf "failed getting global ipv6 addresses after slaving interface: %w"
                          [ArgError (addrListError i err)]))
         ∨ (∃ addrs1 t err,
              rest = [masterSet vrf i;
                      (CAddrList i netlink.FAMILY_V6, RAddrs (Ok addrs1))] ++ t
              ∧ RestoreRun vrf i intf
                  (missingAddresses Equal (globalAddresses addrs0)
                     (globalAddresses addrs1)) t (Some err)
              ∧ returned o = Some err)))
     ∨ (∃ addrs1 t1 t2,
          rest = [masterSet vrf i;
                  (CAddrList i netlink.FAMILY_V6, RAddrs (Ok addrs1))] ++ t1 ++ t2
          ∧ RestoreRun vrf i intf
              (missingAddresses Equal (globalAddresses addrs0)
                 (globalAddresses addrs1)) t1 None
          ∧ routeReplaces rest = routeReplaces t2
          ∧ ((t2 = replaced vrf <$> captured
              ∧ routeReplaces t2 = ok <$> captured
              ∧ returned o = None)
             ∨ (∃ done route left err,
                  captured = done ++ route :: left
                  ∧ t2 = (replaced vrf <$> done)
                         ++ [(CRouteReplace (setTable table route),
                              RStatus (Some err))]
                  ∧ routeReplaces t2
                    = (ok <$> done) ++ [(setTable table route, RStatus (Some err))]
                  ∧ returned o
                    = Some (Errorf "could not add route '%s': %v"
                              [ArgRoute (setTable table route); ArgError err])))))
  ∧ (∀ route' status,
       (route', status) ∈ routeReplaces rest →
       ∃ route, route ∈ r ∧ is_Some (Src route)
                ∧ Scope route = netlink.SCOPE_UNIVERSE
                ∧ route' = setTable table route)
  ∧ (∀ route,
       Table (setTable table route) = table
       ∧ LinkIndex (setTable table route) = LinkIndex route
       ∧ Scope (setTable table route) = Scope route
       ∧ Dst (setTable table route) = Dst route
       ∧ Src (setTable table route) = Src route
       ∧ Gw (setTable table route) = Gw route
       ∧ Protocol (setTable table route) = Protocol route
       ∧ Priority (setTable table route) = Priority route).
Proof.
  intros o Htrace Hfilter captured table ok.
  assert ((routeReplaces rest = []
           ∧ ((∃ err,
                 rest = [(CLinkSetMaster i (LinkVrf vrf), RStatus (Some err))]
                 ∧ returned o
                   = Some (Errorf "could not set vrf %s as master of %s: %v"
                             [ArgString (Name (vrf_LinkAttrs vrf)); ArgString intf;
                              ArgError err]))
              ∨ (∃ err,
                   rest = [masterSet vrf i;
                           (CAddrList i netlink.FAMILY_V6, RAddrs (Error err))]
                   ∧ returned o
                     = Some (Errorf "failed getting global ipv6 addresses after slaving interface: %w"
                               [ArgError (addrListError i err)]))
              ∨ (∃ addrs1 t err,
                   rest = [masterSet vrf i;
                           (CAddrList i netlink.FAMILY_V6, RAddrs (Ok addrs1))] ++ t
                   ∧ RestoreRun vrf i intf
                       (missingAddresses Equal (globalAddresses addrs0)
                          (globalAddresses addrs1)) t (Some err)
                   ∧ returned o = Some err)))
          ∨ (∃ addrs1 t1 t2,
               rest = [masterSet vrf i;
                       (CAddrList i netlink.FAMILY_V6, RAddrs (Ok addrs1))]
                      ++ t1 ++ t2
               ∧ RestoreRun vrf i intf
                   (missingAddresses Equal (globalAddresses addrs0)
                      (globalAddresses addrs1)) t1 None
               ∧ routeReplaces rest = routeReplaces t2
               ∧ ((t2 = replaced vrf <$> captured
                   ∧ routeReplaces t2 = ok <$> captured
                   ∧ returned o = None)
                  ∨ (∃ done route left err,
                       captured = done ++ route :: left
                       ∧ t2 = (replaced vrf <$> done)
                              ++ [(CRouteReplace (setTable table route),
                                   RStatus (Some err))]
                       ∧ routeReplaces t2
                         = (ok <$> done)
                           ++ [(setTable table route, RStatus (Some err))]
                       ∧ returned o
                         = Some (Errorf "could not add route '%s': %v"
                                   [ArgRoute (setTable table route);
                                    ArgError err])))))
    as Hshape.
  { pose proof (addInterface_runs h Equal vrf intf w) as Hrun.
    cbn zeta in Hrun. fold o in Hrun. rewrite Htrace in Hrun.
    revert Hrun. generalize (returned o) as result. clear Htrace. clearbody o.
    intros result Hrun. unfold snapshots in Hrun.
    inversion Hrun as [ | | | | i' a0 r' err Hfree Heq Hres
                        | i' a0 r' err Hfree Heq Hres
                        | i' a0 r' a1 t err Hfree Hrestore Heq Hres
                        | i' a0 r' a1 t1 t2 res Hfree Hrestore Hreplay Heq Hres ];
      unfold snapshots in *; simpl in * |-; simplify_eq.
    - left. split; [done |]. left. by exists err.
    - left. split; [done |]. right; left. by exists err.
    - left. split.
      + apply routeReplaces_RestoreRun in Hrestore. exact Hrestore.
      + right; right. by exists a1, t, err.
    - right. exists a1, t1, t2. split; [done |]. split; [exact Hrestore |].
      assert (routeReplaces ([masterSet vrf i';
                              (CAddrList i' netlink.FAMILY_V6, RAddrs (Ok a1))]
                             ++ t1 ++ t2) = routeReplaces t2) as Hrr.
      { rewrite !routeReplaces_app.
        apply routeReplaces_RestoreRun in Hrestore. by rewrite Hrestore. }
      split; [exact Hrr |].
      destruct Hreplay as [[-> ->] | (done & route & left & err & Hg & -> & ->)].
      + left. split; [done |]. split; [apply routeReplaces_replaced | done].
      + right. exists done, route, left, err. split_and!; [done | done | | done].
        rewrite routeReplaces_app, routeReplaces_replaced. done. }
  split_and!; [done | done | done | | exact Hshape | | done].
  - subst captured. unfold globalRoutesOf. apply filter_ext_Forall.
    eapply Forall_impl; [exact Hfilter |]. simpl. tauto.
  - intros route' status Hin.
    assert (∃ route, route ∈ captured ∧ route' = setTable table route)
      as (route & Hcap & ->).
    { destruct Hshape as [[Hnone _] | (a1 & t1 & t2 & _ & _ & Hrr & Hreplay)].
      - rewrite Hnone in Hin. by apply elem_of_nil in Hin.
      - rewrite Hrr in Hin.
        destruct Hreplay as [(_ & Hall & _) | (done & route & left & err & Hcap & _ & Hsome & _)].
        + rewrite Hall in Hin. apply list_elem_of_fmap in Hin as (route & Heq & Hroute).
          exists route. split; [done |]. subst ok. by injection Heq.
        + rewrite Hsome in Hin. apply elem_of_app in Hin as [Hin | Hin].
          * apply list_elem_of_fmap in Hin as (route0 & Heq & Hroute).
            exists route0. split; [rewrite Hcap; apply elem_of_app; by left |].
            subst ok. by injection Heq.
          * apply list_elem_of_singleton in Hin. injection Hin as -> _.
            exists route. split; [| done]. rewrite Hcap.
            apply elem_of_app. right. apply list_elem_of_here. }
    exists route. subst captured. unfold globalRoutesOf in Hcap.
    apply list_elem_of_filter in Hcap as [Hsrc Hr].
    split_and!; [done | done | | done].
    rewrite Forall_forall in Hfilter. by apply Hfilter.
Qed.

Lemma addInterface_replays_routes_witness :
  let o := run Sim.kernel (addInterface addrEqual Fixture.blue "eth1")
             Fixture.nsTwoRoutes in
  let failed := run (Sim.failing (KernelError 1) Sim.kernel)
                  (addInterface addrEqual Fixture.blue "eth1")
                  (Some 12%nat, Fixture.nsTwoRoutes) in
  globalRoutesOf [Fixture.viaGateway; Fixture.connected; Fixture.viaOther]
  = [Fixture.viaGateway; Fixture.viaOther]
  ∧ routeReplaces (drop 3 (trace o))
    = (fun route => (setTable 10 route, RStatus None))
        <$> globalRoutesOf [Fixture.viaGateway; Fixture.connected; Fixture.viaOther]
  ∧ routeReplaces (drop 3 (trace failed))
    = [(setTable 10 Fixture.viaGateway, RStatus None);
       (setTable 10 Fixture.viaOther, RStatus (Some (KernelError 1)))]
  ∧ returned failed
    = Some (Errorf "could not add route '%s': %v"
              [ArgRoute (setTable 10 Fixture.viaOther); ArgError (KernelError 1)]).
Proof.
  intros o failed.
  split; [vm_compute; reflexivity |].
  split; [| split; vm_compute; reflexivity].
  destruct (addInterface_replays_routes _ Sim.kernel Fixture.nsTwoRoutes addrEqual
              Fixture.blue "eth1" Fixture.eth1
              [Fixture.global10; Fixture.linkLocal]
              [Fixture.viaGateway; Fixture.connected; Fixture.viaOther]
              (drop 3 (trace o)))
    as (_ & _ & Hshape & _).
  - vm_compute. reflexivity.
  - repeat constructor.
  - assert (returned o = None) as Hnone by (vm_compute; reflexivity).
    destruct Hshape as [[_ [Hc | [Hc | Hc]]] | (a1 & t1 & t2 & _ & _ & Hrr & Hreplay)].
    + destruct Hc as (err & _ & Herr).
      discriminate (eq_trans (eq_sym Hnone) Herr).
    + destruct Hc as (err & _ & Herr).
      discriminate (eq_trans (eq_sym Hnone) Herr).
    + destruct Hc as (a1 & t & err & _ & _ & Herr).
      discriminate (eq_trans (eq_sym Hnone) Herr).
    + destruct Hreplay as [(_ & Hall & _) | (done & route & left & err & _ & _ & _ & Herr)].
      * exact (eq_trans Hrr Hall).
      * discriminate (eq_trans (eq_sym Hnone) Herr).
Defined.

(** C10: when the master-set call has succeeded and addInterface fails
    all the same, every call it has made after the master-set is an
    address listing or an AddrAdd on the interface, a route listing, a
    sleep, or a replace of a route in the VRF's table: it clears no
    master and deletes no address and no route. *)
Theorem addInterface_no_rollback W (h : Handler W) (w : W)
    (Equal : Addr → Addr → bool) (vrf : Vrf) (intf : string) (i : Link)
    (addrs0 : list Addr) (r : list Route) (post : list Event) (err : error) :
  let o := run h (addInterface Equal vrf intf) w in
  trace o = snapshots intf i addrs0 r ++ masterSet vrf i :: post →
  returned o = Some err →
  Forall (fun ev => repairCall vrf i ev.1) post
  ∧ Forall (fun ev => undoes ev.1 = false) post.
Proof.
  intros o Htrace Hfail.
  assert (Forall (fun ev => repairCall vrf i ev.1) post) as Hpost.
  { pose proof (addInterface_runs h Equal vrf intf w) as Hrun.
    cbn zeta in Hrun. fold o in Hrun. rewrite Htrace in Hrun.
    revert Hrun. generalize (returned o) as result. clear Htrace. clearbody o.
    intros result Hrun. unfold snapshots, masterSet in Hrun.
    inversion Hrun as [ | | | | i' a0 r' err' Hfree Heq Hres
                        | i' a0 r' err' Hfree Heq Hres
                        | i' a0 r' a1 t err' Hfree Hrestore Heq Hres
                        | i' a0 r' a1 t1 t2 res Hfree Hrestore Hreplay Heq Hres ];
      unfold snapshots, masterSet in *; simplify_eq/=.
    - by repeat constructor.
    - constructor; [done |].
      eapply RestoreRun_Forall; [| | | exact Hrestore]; done.
    - constructor; [done |]. apply Forall_app. split.
      + eapply RestoreRun_Forall; [| | | exact Hrestore]; done.
      + eapply ReplayRun_Forall; [| exact Hreplay]; done. }
  split; [exact Hpost |].
  eapply Forall_impl; [exact Hpost |].
  intros [c rep] Hc. simpl in *. by destruct c.
Qed.

Lemma addInterface_no_rollback_witness :
  let o := run Sim.kernel (addInterface addrEqual Fixture.blue "eth1")
             Fixture.nsSlow in
  (∃ err, returned o = Some err)
  ∧ Forall (fun ev => undoes ev.1 = false) (drop 4 (trace o))
  ∧ Sim.byName "eth1" (world o) = Some (device "eth1" 2 3)
  ∧ (2, Fixture.global10) ∈ Sim.addrs (world o).
Proof.
  intros o. split_and!.
  - eexists. vm_compute. reflexivity.
  - refine (proj2 (addInterface_no_rollback _ Sim.kernel Fixture.nsSlow addrEqual
                     Fixture.blue "eth1" Fixture.eth1
                     [Fixture.global10; Fixture.linkLocal]
                     [Fixture.viaGateway; Fixture.connected]
                     (drop 4 (trace o)) _ _ _)).
    + vm_compute. reflexivity.
    + vm_compute. reflexivity.
  - vm_compute. reflexivity.
  - apply (bool_decide_unpack _). vm_compute. exact I.
Defined.

(* ===================================================================== *)
(* Further properties of vrf.go                                          *)
(* ===================================================================== *)

(* --------------------------------------------------------------------- *)
(* The allocator and createVRF                                           *)
(* --------------------------------------------------------------------- *)

Lemma range_in_tables_length (T : list Z) (n : Z) :
  0 ≤ n → (∀ t, 1 ≤ t < 1 + n → t ∈ T) → n ≤ Z.of_nat (length T).
Proof.
  intros Hn Hall.
  assert (seqZ 1 n ⊆+ T) as Hsub.
  { apply NoDup_submseteq; [apply NoDup_seqZ |].
    intros t Ht. apply elem_of_seqZ in Ht. apply Hall. lia. }
  apply submseteq_length in Hsub. rewrite length_seqZ in Hsub. lia.
Qed.

(** X1: when fewer than math.MaxUint32 - 1 of the links are VRF devices
    the allocator succeeds, and the table it returns is positive, used by
    no VRF device and at most the number of VRF devices plus one. *)
Theorem findFreeRoutingTableID_bounded (links : list Link) :
  Z.of_nat (length (vrfTables links)) < MaxUint32 - 1 →
  ∃ res, findFreeRoutingTableID links = Ok res
         ∧ 1 ≤ res ≤ Z.of_nat (length (vrfTables links)) + 1
         ∧ res ∉ vrfTables links.
Proof.
  intros Hfew. destruct (findFreeRoutingTableID links) as [res | err] eqn:Hfind.
  - exists res. apply findFree_Ok in Hfind as (Hres & Hfree & Hbelow).
    split_and!; [done | lia | | done].
    pose proof (range_in_tables_length (vrfTables links) (res - 1)) as Hlen.
    assert (res - 1 ≤ Z.of_nat (length (vrfTables links))); [| lia].
    apply Hlen; [lia |]. intros t Ht. apply Hbelow. lia.
  - apply findFree_Error in Hfind as [_ Hall].
    pose proof (range_in_tables_length (vrfTables links) (MaxUint32 - 1)) as Hlen.
    assert (MaxUint32 - 1 ≤ Z.of_nat (length (vrfTables links))); [| lia].
    apply Hlen; [unfold MaxUint32; lia |]. intros t Ht. apply Hall. lia.
Qed.

Lemma findFreeRoutingTableID_bounded_witness :
  ∃ res, findFreeRoutingTableID (Sim.links Fixture.nsTables13) = Ok res
         ∧ 1 ≤ res ≤ Z.of_nat (length (vrfTables (Sim.links Fixture.nsTables13))) + 1
         ∧ res ∉ vrfTables (Sim.links Fixture.nsTables13).
Proof.
  apply (findFreeRoutingTableID_bounded (Sim.links Fixture.nsTables13)).
  unfold MaxUint32. simpl. lia.
Defined.

(* Every way createVRF can run. *)
Lemma createVRF_runs {W} (h : Handler W) (w : W) (name : string) (tableID : Z) :
  let o := run h (createVRF name tableID) w in
  (∃ err,
     trace o = [(CLinkList, RLinks (Error err))]
     ∧ returned o = Error (Errorf "createVRF: Failed to find links %v" [ArgError err]))
  ∨ (∃ links err,
       (h CLinkList w).1 = Ok links
       ∧ trace o = [(CLinkList, RLinks (Ok links))]
       ∧ tableID = 0
       ∧ findFreeRoutingTableID links = Error err
       ∧ returned o = Error err)
  ∨ (∃ links t,
       (h CLinkList w).1 = Ok links
       ∧ (if decide (tableID = 0) then findFreeRoutingTableID links else Ok tableID)
         = Ok t
       ∧ ((∃ err,
             trace o = [(CLinkList, RLinks (Ok links));
                        (CLinkAdd (LinkVrf (vrfDescriptor name t)), RStatus (Some err))]
             ∧ returned o = Error (Errorf "could not add VRF %s: %v"
                                     [ArgString name; ArgError err]))
          ∨ (∃ status,
               trace o = [(CLinkList, RLinks (Ok links));
                          (CLinkAdd (LinkVrf (vrfDescriptor name t)), RStatus None);
                          (CLinkSetUp (LinkVrf (vrfDescriptor name t)), RStatus status)]
               ∧ returned o
                 = match status with
                   | Some err =>
                       Error (Errorf "could not set link up for VRF %s: %v"
                                [ArgString name; ArgError err])
                   | None => Ok (vrfDescriptor name t)
                   end))).
Proof.
  unfold createVRF, netlinksafe.LinkList, call. rewrite run_bind, run_Vis.
  destruct (h CLinkList w) as [[links | err] w1];
    cbn [fst snd returned world trace run bind mbind Prog_bind];
    [| left; by exists err].
  destruct (if decide (tableID = 0) then findFreeRoutingTableID links
            else Ok tableID) as [t | err] eqn:Hchoice.
  - right; right. exists links, t. split; [done |]. split; [done |].
    simpl. fold (vrfDescriptor name t).
    destruct (h (CLinkAdd _) w1) as [[e1 |] w2]; simpl.
    + left. by exists e1.
    + right. destruct (h (CLinkSetUp _) w2) as [[e2 |] w3]; simpl.
      * by exists (Some e2).
      * by exists None.
  - right; left. exists links, err. split; [done |].
    case_decide; [done | discriminate].
Qed.

(** X2: a createVRF with tableID = 0 only ever adds a VRF of the given
    name whose table is positive, below math.MaxUint32 and used by no VRF
    device of the link list it was given; the VRF it returns has such a
    table. *)
Theorem createVRF_auto_table_fresh W (h : Handler W) (w w1 : W) (name : string)
    (tableID : Z) (links : list Link) :
  tableID = 0 →
  h CLinkList w = (Ok links, w1) →
  let o := run h (createVRF name tableID) w in
  (∀ l status, (CLinkAdd l, status) ∈ trace o →
     ∃ vrf, l = LinkVrf vrf
            ∧ Name (vrf_LinkAttrs vrf) = name
            ∧ 1 ≤ vrf_Table vrf < MaxUint32
            ∧ vrf_Table vrf ∉ vrfTables links)
  ∧ (∀ vrf, returned o = Ok vrf →
       1 ≤ vrf_Table vrf < MaxUint32 ∧ (vrf_Table vrf ∉ vrfTables links)
       ∧ (CLinkAdd (LinkVrf vrf), RStatus None) ∈ trace o).
Proof.
  intros Hzero Hlist o.
  destruct (createVRF_runs h w name tableID) as [Hrun | [Hrun | Hrun]]; fold o in Hrun.
  - destruct Hrun as (err & Ht & Hres). rewrite Ht, Hres. split.
    + intros l status Hin. apply list_elem_of_singleton in Hin. discriminate.
    + intros vrf Hvrf. discriminate.
  - destruct Hrun as (links' & err & _ & Ht & _ & _ & Hres). rewrite Ht, Hres. split.
    + intros l status Hin. apply list_elem_of_singleton in Hin. discriminate.
    + intros vrf Hvrf. discriminate.
  - destruct Hrun as (links' & t & Hl & Hchoice & Hrun).
    rewrite Hlist in Hl. injection Hl as <-.
    rewrite decide_True in Hchoice by done.
    apply findFree_Ok in Hchoice as (Hrange & Hnot & _).
    destruct Hrun as [(err & Ht & Hres) | (status & Ht & Hres)]; rewrite Ht, Hres.
    + split.
      * intros l st Hin. rewrite !elem_of_cons, elem_of_nil in Hin.
        destruct Hin as [Hin | [Hin | []]]; [discriminate |].
        injection Hin as -> _. by exists (vrfDescriptor name t).
      * intros vrf Hvrf. discriminate.
    + split.
      * intros l st Hin. rewrite !elem_of_cons, elem_of_nil in Hin.
        destruct Hin as [Hin | [Hin | [Hin | []]]]; [discriminate | | discriminate].
        injection Hin as -> _. by exists (vrfDescriptor name t).
      * intros vrf Hvrf. destruct status as [e |]; [discriminate |].
        injection Hvrf as <-. split; [exact Hrange |]. split; [exact Hnot |].
        rewrite !elem_of_cons. tauto.
Qed.

Lemma createVRF_auto_table_fresh_witness :
  let o := run Sim.kernel (createVRF "vrf-blue" 0) Fixture.nsTables13 in
  returned o = Ok (vrfDescriptor "vrf-blue" 2)
  ∧ ∀ vrf, returned o = Ok vrf →
      1 ≤ vrf_Table vrf < MaxUint32
      ∧ (vrf_Table vrf ∉ vrfTables (Sim.links Fixture.nsTables13))
      ∧ (CLinkAdd (LinkVrf vrf), RStatus None) ∈ trace o.
Proof.
  intros o. split; [vm_compute; reflexivity |].
  refine (proj2 (createVRF_auto_table_fresh _ Sim.kernel Fixture.nsTables13
                   Fixture.nsTables13 "vrf-blue" 0 (Sim.links Fixture.nsTables13)
                   _ _)).
  - reflexivity.
  - reflexivity.
Defined.

(** X3: createVRF stops at its first failing call and undoes nothing: a
    failed link listing is the only call of the run; after a failed
    LinkAdd no LinkSetUp is made and the error names the VRF and carries
    the failure; a failed LinkSetUp comes after the successful LinkAdd of
    the same descriptor, which stays added, and its error names the VRF
    and carries the failure; a run that returns a VRF has added exactly
    that descriptor and set it up. *)
Theorem createVRF_stops_at_first_failure W (h : Handler W) (w : W)
    (name : string) (tableID : Z) :
  let o := run h (createVRF name tableID) w in
  (∀ err, (CLinkList, RLinks (Error err)) ∈ trace o →
     trace o = [(CLinkList, RLinks (Error err))]
     ∧ returned o = Error (Errorf "createVRF: Failed to find links %v" [ArgError err]))
  ∧ (∀ l err, (CLinkAdd l, RStatus (Some err)) ∈ trace o →
       returned o = Error (Errorf "could not add VRF %s: %v"
                             [ArgString name; ArgError err])
       ∧ ∀ l' status, (CLinkSetUp l', status) ∉ trace o)
  ∧ (∀ l err, (CLinkSetUp l, RStatus (Some err)) ∈ trace o →
       returned o = Error (Errorf "could not set link up for VRF %s: %v"
                             [ArgString name; ArgError err])
       ∧ ∃ links, trace o = [(CLinkList, RLinks (Ok links));
                             (CLinkAdd l, RStatus None);
                             (CLinkSetUp l, RStatus (Some err))])
  ∧ (∀ vrf, returned o = Ok vrf →
       ∃ links, trace o = [(CLinkList, RLinks (Ok links));
                           (CLinkAdd (LinkVrf vrf), RStatus None);
                           (CLinkSetUp (LinkVrf vrf), RStatus None)]).
Proof.
  intros o.
  destruct (createVRF_runs h w name tableID) as [Hrun | [Hrun | Hrun]];
    fold o in Hrun.
  - destruct Hrun as (err & Ht & Hres). rewrite Ht, Hres. split_and!.
    + intros err' Hin. apply list_elem_of_singleton in Hin. by injection Hin as ->.
    + intros l err' Hin. apply list_elem_of_singleton in Hin. discriminate.
    + intros l err' Hin. apply list_elem_of_singleton in Hin. discriminate.
    + intros vrf Hvrf. discriminate.
  - destruct Hrun as (links & err & _ & Ht & _ & _ & Hres). rewrite Ht, Hres. split_and!.
    + intros err' Hin. apply list_elem_of_singleton in Hin. discriminate.
    + intros l err' Hin. apply list_elem_of_singleton in Hin. discriminate.
    + intros l err' Hin. apply list_elem_of_singleton in Hin. discriminate.
    + intros vrf Hvrf. discriminate.
  - destruct Hrun as (links & t & _ & _ & [(err & Ht & Hres) | (status & Ht & Hres)]);
      rewrite Ht, Hres.
    + split_and!.
      * intros err' Hin. rewrite !elem_of_cons, elem_of_nil in Hin.
        destruct Hin as [Hin | [Hin | []]]; discriminate.
      * intros l err' Hin. rewrite !elem_of_cons, elem_of_nil in Hin.
        destruct Hin as [Hin | [Hin | []]]; [discriminate |].
        injection Hin as -> ->. split; [done |].
        intros l' st Hup. rewrite !elem_of_cons, elem_of_nil in Hup.
        destruct Hup as [Hup | [Hup | []]]; discriminate.
      * intros l err' Hin. rewrite !elem_of_cons, elem_of_nil in Hin.
        destruct Hin as [Hin | [Hin | []]]; discriminate.
      * intros vrf Hvrf. discriminate.
    + split_and!.
      * intros err' Hin. rewrite !elem_of_cons, elem_of_nil in Hin.
        destruct Hin as [Hin | [Hin | [Hin | []]]]; discriminate.
      * intros l err' Hin. rewrite !elem_of_cons, elem_of_nil in Hin.
        destruct Hin as [Hin | [Hin | [Hin | []]]]; discriminate.
      * intros l err' Hin. rewrite !elem_of_cons, elem_of_nil in Hin.
        destruct Hin as [Hin | [Hin | [Hin | []]]]; [discriminate | discriminate |].
        injection Hin as -> <-. split; [done |]. by exists links.
      * intros vrf Hvrf. destruct status as [e |]; [discriminate |].
        injection Hvrf as <-. by exists links.
Qed.

Lemma createVRF_stops_at_first_failure_witness :
  let o := run Sim.kernel (createVRF "vrf-a" 7) Fixture.nsTables13 in
  returned o = Error (Errorf "could not add VRF %s: %v"
                        [ArgString "vrf-a"; ArgError (KernelError Sim.EEXIST)])
  ∧ ∀ l' status, (CLinkSetUp l', status) ∉ trace o.
Proof.
  intros o.
  refine (proj1 (proj2 (createVRF_stops_at_first_failure _ Sim.kernel
                          Fixture.nsTables13 "vrf-a" 7))
            (LinkVrf (vrfDescriptor "vrf-a" 7)) (KernelError Sim.EEXIST) _).
  vm_compute. apply list_elem_of_further, list_elem_of_here.
Defined.

(* --------------------------------------------------------------------- *)
(* Time and calls spent by the repair                                    *)
(* --------------------------------------------------------------------- *)

Lemma foldr_add_from (l : list Z) (z : Z) :
  foldr Z.add z l = foldr Z.add 0 l + z.
Proof. induction l as [| x l IH]; simpl; lia. Qed.

Lemma totalSleep_app (t1 t2 : list Event) :
  totalSleep (t1 ++ t2) = totalSleep t1 + totalSleep t2.
Proof.
  unfold totalSleep, sleeps. by rewrite omap_app, foldr_app, foldr_add_from.
Qed.

Lemma totalSleep_no_sleep (t : list Event) :
  Forall (fun ev => ∀ d, ev.1 ≠ CSleep d) t → totalSleep t = 0.
Proof.
  intros Hall. unfold totalSleep, sleeps. rewrite omap_None_Forall; [done |].
  eapply Forall_impl; [exact Hall |]. intros [c rep] Hc. simpl in *.
  destruct c; try done. by destruct (Hc d).
Qed.

Lemma totalSleep_polls vrf i toFind (n : nat) :
  (n ≤ 8)%nat →
  totalSleep (polls vrf i toFind n) = 10 * time.Millisecond * (2 ^ Z.of_nat n - 1).
Proof.
  intros Hn. unfold totalSleep, polls. rewrite sleeps_pollsFrom.
  do 9 (destruct n as [| n]; [reflexivity |]). lia.
Qed.

Lemma totalSleep_WaitRun vrf i intf toFind tw res :
  WaitRun vrf i intf toFind tw res →
  0 ≤ totalSleep tw ≤ 2550 * time.Millisecond.
Proof.
  intros (n & final & Hn & -> & _).
  rewrite totalSleep_app.
  rewrite (totalSleep_no_sleep [_]) by (repeat constructor; done).
  unfold totalSleep, polls. rewrite sleeps_pollsFrom. clear -Hn.
  do 9 (destruct n as [| n]; [vm_compute; split; discriminate |]). lia.
Qed.

(** X4: one wait for a host route sleeps 2550 ms at most and makes no
    call that changes kernel state; it returns its timeout error only
    after nine listings and exactly 2550 ms of sleep, and it returns
    without error only when its last listing showed a route. *)
Theorem waitForHostRoute_bounded W (h : Handler W) (w : W) (vrf : Vrf) (i : Link)
    (intf : string) (toFind : Addr) :
  let o := run h (waitForHostRoute vrf i intf toFind retryCounts) w in
  0 ≤ totalSleep (trace o) ≤ 2550 * time.Millisecond
  ∧ Forall (fun ev => mutates ev.1 = false) (trace o)
  ∧ (returned o
     = Some (Errorf "failed getting local/host addresses for %s in table %d with dst %s"
               [ArgString intf; ArgUint (vrf_Table vrf); ArgIPNet (addr_IPNet toFind)]) →
     totalSleep (trace o) = 2550 * time.Millisecond
     ∧ length (routeQueries (trace o)) = 9%nat)
  ∧ (returned o = None →
     ∃ route routes,
       last (trace o)
       = Some (hostRouteQuery vrf i toFind, RRoutes (Ok (route :: routes)))).
Proof.
  intros o. pose proof (run_waitForHostRoute h vrf i intf toFind w) as Hrun.
  cbn zeta in Hrun. fold o in Hrun. split; [| split; [| split]].
  - by eapply totalSleep_WaitRun.
  - eapply WaitRun_Forall; [| | exact Hrun]; done.
  - destruct Hrun as (n & final & Hn & Ht & Hv). intros Hres. rewrite Hres in Hv.
    destruct final as [[| route routes] | err]; simpl in Hv; [| done | done].
    destruct Hv as [-> _]. rewrite Ht. split.
    + rewrite totalSleep_app, totalSleep_polls by done.
      rewrite (totalSleep_no_sleep [_]) by (repeat constructor; done). reflexivity.
    + unfold routeQueries. rewrite omap_app.
      fold (routeQueries (polls vrf i toFind 8)). unfold polls.
      rewrite routeQueries_pollsFrom. reflexivity.
  - destruct Hrun as (n & final & Hn & Ht & Hv). intros Hres. rewrite Hres in Hv.
    destruct final as [[| route routes] | err]; simpl in Hv.
    + by destruct Hv.
    + exists route, routes. rewrite Ht. apply last_snoc.
    + done.
Qed.

Lemma RestoreRun_nil vrf i intf t res :
  RestoreRun vrf i intf [] t res → t = [] ∧ res = None.
Proof.
  intros (restored & tail & -> & _ & [(Hm & -> & ->) | [Hc | Hc]]).
  - destruct restored; [done | discriminate].
  - destruct Hc as (a & err & left & Hm & _). by destruct (restored.*1).
  - destruct Hc as (a & tw & err & left & Hm & _). by destruct (restored.*1).
Qed.

Lemma RestoreRun_budget vrf i intf missing t res :
  RestoreRun vrf i intf missing t res →
  0 ≤ totalSleep t ≤ 2550 * time.Millisecond * Z.of_nat (length missing)
  ∧ (length (addrAdds t) ≤ length missing)%nat.
Proof.
  intros (restored & tail & -> & Hall & Hcases).
  assert (0 ≤ totalSleep (concat (restoredAddress i <$> restored))
          ≤ 2550 * time.Millisecond * Z.of_nat (length restored)) as Hdone.
  { clear Hcases. induction Hall as [| [a tw] restored Hw _ IH].
    - unfold time.Millisecond. done.
    - rewrite fmap_cons. cbn [concat]. rewrite totalSleep_app.
      change (restoredAddress i (a, tw)) with ([(CAddrAdd i a, RStatus None)] ++ tw).
      rewrite totalSleep_app.
      rewrite (totalSleep_no_sleep [_]) by (repeat constructor; done).
      apply totalSleep_WaitRun in Hw. simpl in Hw. simpl length.
      unfold time.Millisecond in *. lia. }
  pose proof (addrAdds_restored _ _ _ _ Hall) as Hadds.
  rewrite totalSleep_app, addrAdds_app, length_app, Hadds, !length_fmap.
  destruct Hcases as [(<- & -> & _) | [Hc | Hc]].
  - rewrite length_fmap. change (totalSleep []) with 0. simpl. lia.
  - destruct Hc as (a & err & left & -> & -> & _).
    rewrite (totalSleep_no_sleep [_]) by (repeat constructor; done).
    rewrite length_app, length_fmap. simpl. unfold time.Millisecond in *. lia.
  - destruct Hc as (a & tw & err & left & -> & -> & Hw & _).
    change ((CAddrAdd i a, RStatus None) :: tw)
      with ([(CAddrAdd i a, RStatus None)] ++ tw).
    rewrite totalSleep_app, addrAdds_app, length_app.
    rewrite (totalSleep_no_sleep [_]) by (repeat constructor; done).
    rewrite (addrAdds_WaitRun _ _ _ _ _ _ Hw).
    apply totalSleep_WaitRun in Hw.
    rewrite length_app, length_fmap. simpl. unfold time.Millisecond in *. lia.
Qed.

Lemma ReplayRun_quiet vrf globalRoutes t res :
  ReplayRun vrf globalRoutes t res → totalSleep t = 0.
Proof.
  intros Hrun. apply totalSleep_no_sleep.
  eapply ReplayRun_Forall; [| exact Hrun]; done.
Qed.

Lemma length_missingAddresses Equal (beforeAddresses afterAddresses : list Addr) :
  (length (missingAddresses Equal beforeAddresses afterAddresses)
   ≤ length beforeAddresses)%nat.
Proof. apply length_filter. Qed.

(** X5: a run of addInterface that has taken its first address snapshot
    sleeps at most 2550 ms for every global address of that snapshot, and
    adds at most as many addresses as the snapshot has global ones. *)
Theorem addInterface_repair_budget W (h : Handler W) (w : W)
    (Equal : Addr → Addr → bool) (vrf : Vrf) (intf : string) (i : Link)
    (addrs0 : list Addr) (rest : list Event) :
  let o := run h (addInterface Equal vrf intf) w in
  trace o = (CLinkByName intf, RLink (Ok i))
            :: (CAddrList i netlink.FAMILY_V6, RAddrs (Ok addrs0)) :: rest →
  0 ≤ totalSleep (trace o)
    ≤ 2550 * time.Millisecond * Z.of_nat (length (globalAddresses addrs0))
  ∧ (length (addrAdds (trace o)) ≤ length (globalAddresses addrs0))%nat.
Proof.
  intros o Htrace.
  pose proof (addInterface_runs h Equal vrf intf w) as Hrun.
  cbn zeta in Hrun. fold o in Hrun. rewrite Htrace in *.
  revert Hrun. generalize (returned o) as result. clear Htrace. clearbody o.
  intros result Hrun.
  assert (0 ≤ 2550 * time.Millisecond * Z.of_nat (length (globalAddresses addrs0)))
    as Hnonneg by (unfold time.Millisecond; lia).
  inversion Hrun as [ | | | i' a0 err' Hfree Heq Hres
                      | i' a0 r' err' Hfree Heq Hres
                      | i' a0 r' err' Hfree Heq Hres
                      | i' a0 r' a1 t err' Hfree Hrestore Heq Hres
                      | i' a0 r' a1 t1 t2 res Hfree Hrestore Hreplay Heq Hres ];
    unfold snapshots, masterSet in *; simpl in * |-; simplify_eq.
  - rewrite totalSleep_no_sleep by (repeat constructor; done).
    split; [lia | simpl; lia].
  - rewrite totalSleep_no_sleep by (repeat constructor; done).
    split; [lia | simpl; lia].
  - rewrite totalSleep_no_sleep by (repeat constructor; done).
    split; [lia | simpl; lia].
  - apply RestoreRun_budget in Hrestore as [Hsleep Hadds].
    pose proof (length_missingAddresses Equal (globalAddresses addrs0)
                  (globalAddresses a1)) as Hlen.
    match goal with
    | |- context [totalSleep (?a :: ?b :: ?c :: ?d :: ?e :: t)] =>
        change (totalSleep (a :: b :: c :: d :: e :: t)) with (totalSleep t);
        change (addrAdds (a :: b :: c :: d :: e :: t)) with (addrAdds t)
    end.
    unfold time.Millisecond in *. split; [nia | lia].
  - apply RestoreRun_budget in Hrestore as [Hsleep Hadds].
    pose proof (length_missingAddresses Equal (globalAddresses addrs0)
                  (globalAddresses a1)) as Hlen.
    match goal with
    | |- context [totalSleep (?a :: ?b :: ?c :: ?d :: ?e :: t1 ++ t2)] =>
        change (totalSleep (a :: b :: c :: d :: e :: t1 ++ t2))
          with (totalSleep (t1 ++ t2));
        change (addrAdds (a :: b :: c :: d :: e :: t1 ++ t2))
          with (addrAdds (t1 ++ t2))
    end.
    rewrite totalSleep_app, addrAdds_app, length_app.
    rewrite (ReplayRun_quiet _ _ _ _ Hreplay).
    rewrite (addrAdds_ReplayRun _ _ _ _ Hreplay).
    unfold time.Millisecond in *. split; [nia | simpl; lia].
Qed.

Lemma addInterface_repair_budget_witness :
  let o := run Sim.kernel (addInterface addrEqual Fixture.blue "eth1")
             Fixture.nsSlow in
  totalSleep (trace o) = 2550 * time.Millisecond
  ∧ 0 ≤ totalSleep (trace o)
      ≤ 2550 * time.Millisecond
        * Z.of_nat (length (globalAddresses [Fixture.global10; Fixture.linkLocal]))
  ∧ (length (addrAdds (trace o))
     ≤ length (globalAddresses [Fixture.global10; Fixture.linkLocal]))%nat.
Proof.
  intros o. split; [vm_compute; reflexivity |].
  apply (addInterface_repair_budget _ Sim.kernel Fixture.nsSlow addrEqual
           Fixture.blue "eth1" Fixture.eth1 [Fixture.global10; Fixture.linkLocal]
           (drop 2 (trace o))).
  vm_compute. reflexivity.
Defined.

(* --------------------------------------------------------------------- *)
(* Order of the effects of addInterface                                  *)
(* --------------------------------------------------------------------- *)

Lemma missingAddresses_nil Equal (beforeAddresses afterAddresses : list Addr) :
  (∀ a, a ∈ beforeAddresses → foundIn Equal afterAddresses a = true) →
  missingAddresses Equal beforeAddresses afterAddresses = [].
Proof.
  intros Hall. unfold missingAddresses.
  induction beforeAddresses as [| a rest IH]; [done |].
  rewrite filter_cons. rewrite decide_False.
  - apply IH. intros b Hb. apply Hall. by apply list_elem_of_further.
  - rewrite (Hall a) by apply list_elem_of_here. done.
Qed.

(** X6: when every global address of the first snapshot has an equal one
    among the global addresses of the second, addInterface adds no
    address, lists no host route and does not sleep: what follows the
    second snapshot is the route replay alone. *)
Theorem addInterface_kept_addresses W (h : Handler W) (w : W)
    (Equal : Addr → Addr → bool) (vrf : Vrf) (intf : string) (i : Link)
    (addrs0 addrs1 : list Addr) (r : list Route) (rest : list Event) :
  let o := run h (addInterface Equal vrf intf) w in
  (∀ a, a ∈ globalAddresses addrs0 →
        foundIn Equal (globalAddresses addrs1) a = true) →
  trace o = snapshots intf i addrs0 r
            ++ [masterSet vrf i; (CAddrList i netlink.FAMILY_V6, RAddrs (Ok addrs1))]
            ++ rest →
  ReplayRun vrf (globalRoutesOf r) rest (returned o)
  ∧ addrAdds (trace o) = []
  ∧ sleeps (trace o) = []
  ∧ length (routeQueries (trace o)) = 1%nat.
Proof.
  intros o Hkept Htrace.
  pose proof (addInterface_runs h Equal vrf intf w) as Hrun.
  cbn zeta in Hrun. fold o in Hrun. rewrite Htrace in *.
  revert Hrun. generalize (returned o) as result. clear Htrace. clearbody o.
  intros result Hrun. unfold snapshots, masterSet in *.
  inversion Hrun as [ | | | | |
                      | i' a0 r' a1 t err' Hfree Hrestore Heq Hres
                      | i' a0 r' a1 t1 t2 res Hfree Hrestore Hreplay Heq Hres ];
    unfold snapshots, masterSet in *; simpl in * |-; simplify_eq.
  - rewrite (missingAddresses_nil _ _ _ Hkept) in Hrestore.
    by apply RestoreRun_nil in Hrestore as [_ ?].
  - rewrite (missingAddresses_nil _ _ _ Hkept) in Hrestore.
    apply RestoreRun_nil in Hrestore as [-> _]. simpl app.
    split; [exact Hreplay |].
    assert (Forall (fun ev : Event =>
                      match ev.1 with
                      | CAddrAdd _ _ | CSleep _ | CRouteListFiltered _ _ _ => False
                      | _ => True
                      end) t2) as Hquiet.
    { eapply ReplayRun_Forall; [| exact Hreplay]; done. }
    split_and!.
    + unfold addrAdds. simpl. apply omap_None_Forall.
      eapply Forall_impl; [exact Hquiet |]. intros [c rep]. simpl. by destruct c.
    + unfold sleeps. simpl. apply omap_None_Forall.
      eapply Forall_impl; [exact Hquiet |]. intros [c rep]. simpl. by destruct c.
    + unfold routeQueries. simpl. rewrite omap_None_Forall; [done |].
      eapply Forall_impl; [exact Hquiet |]. intros [c rep]. simpl. by destruct c.
Qed.

Lemma addInterface_kept_addresses_witness :
  let o := run Sim.kernel (addInterface addrEqual Fixture.blue "eth1")
             Fixture.nsKeep in
  returned o = None
  ∧ addrAdds (trace o) = []
  ∧ sleeps (trace o) = []
  ∧ length (routeQueries (trace o)) = 1%nat.
Proof.
  intros o. split; [vm_compute; reflexivity |].
  refine (proj2 (addInterface_kept_addresses _ Sim.kernel Fixture.nsKeep addrEqual
                   Fixture.blue "eth1" Fixture.eth1
                   [Fixture.global10; Fixture.linkLocal]
                   [Fixture.global10; Fixture.linkLocal]
                   [Fixture.viaGateway; Fixture.connected]
                   (drop 5 (trace o)) _ _)).
  - intros a Ha. vm_compute in Ha. apply list_elem_of_singleton in Ha. subst a.
    vm_compute. reflexivity.
  - vm_compute. reflexivity.
Defined.

Lemma first_split {A} (P : A → Prop) (pre pre' post post' : list A) (x x' : A) :
  pre ++ x :: post = pre' ++ x' :: post' →
  Forall (fun y => ¬ P y) pre → P x →
  Forall (fun y => ¬ P y) pre' → P x' →
  pre = pre' ∧ x = x' ∧ post = post'.
Proof.
  revert pre'. induction pre as [| y pre IH]; intros [| y' pre'] Heq Hpre Hx Hpre' Hx';
    simpl in Heq.
  - by injection Heq as -> ->.
  - injection Heq as -> _. apply Forall_cons in Hpre' as [Hny _]. by destruct Hny.
  - injection Heq as -> _. apply Forall_cons in Hpre as [Hny _]. by destruct Hny.
  - injection Heq as -> Heq.
    apply Forall_cons in Hpre as [_ Hpre]. apply Forall_cons in Hpre' as [_ Hpre'].
    destruct (IH pre' Heq Hpre Hx Hpre' Hx') as (-> & -> & ->). done.
Qed.

(** X7: the first call of addInterface that changes kernel state is the
    master-set, made on an interface without master after the lookup and
    the two snapshots have succeeded; a run in which one of these three
    fails changes nothing.  When the master-set fails it is the last call
    and the error names the VRF and the interface and carries the
    failure. *)
Theorem addInterface_first_mutation W (h : Handler W) (w : W)
    (Equal : Addr → Addr → bool) (vrf : Vrf) (intf : string)
    (pre post : list Event) (c : Call) (rep : Reply) :
  let o := run h (addInterface Equal vrf intf) w in
  trace o = pre ++ (c, rep) :: post →
  Forall (fun ev => mutates ev.1 = false) pre →
  mutates c = true →
  ∃ i addrs0 r,
    pre = snapshots intf i addrs0 r
    ∧ MasterIndex (Attrs i) = 0
    ∧ c = CLinkSetMaster i (LinkVrf vrf)
    ∧ ∀ err, rep = RStatus (Some err) →
        post = []
        ∧ returned o
          = Some (Errorf "could not set vrf %s as master of %s: %v"
                    [ArgString (Name (vrf_LinkAttrs vrf)); ArgString intf;
                     ArgError err]).
Proof.
  intros o Htrace Hpre Hc.
  pose proof (addInterface_runs h Equal vrf intf w) as Hrun.
  cbn zeta in Hrun. fold o in Hrun. rewrite Htrace in *.
  revert Hrun. generalize (returned o) as result. clear Htrace. clearbody o.
  intros result Hrun.
  assert (Forall (fun ev : Event => ¬ mutates ev.1 = true) pre) as Hpre'.
  { eapply Forall_impl; [exact Hpre |]. intros ev Hev. by rewrite Hev. }
  assert (∀ t, pre ++ (c, rep) :: post = t →
               Forall (fun ev : Event => mutates ev.1 = false) t → False) as Hreads.
  { intros t <- Hall. apply Forall_app in Hall as [_ Hall].
    apply Forall_cons in Hall as [Hc' _]. simpl in Hc'. congruence. }
  assert (∀ i addrs0 r st tail,
            pre ++ (c, rep) :: post
            = snapshots intf i addrs0 r ++ (CLinkSetMaster i (LinkVrf vrf), st) :: tail →
            pre = snapshots intf i addrs0 r
            ∧ (c, rep) = (CLinkSetMaster i (LinkVrf vrf), st)
            ∧ post = tail) as Hsplit.
  { intros i addrs0 r st tail Heq.
    apply (first_split (fun ev : Event => mutates ev.1 = true) _ _ _ _ _ _ Heq);
      [done | done | by repeat constructor | done]. }
  inversion Hrun as [ err' Heq Hres
                    | i' m Hmaster Heq Hres
                    | i' err' Hfree Heq Hres
                    | i' a0 err' Hfree Heq Hres
                    | i' a0 r' err' Hfree Heq Hres
                    | i' a0 r' err' Hfree Heq Hres
                    | i' a0 r' a1 t err' Hfree Hrestore Heq Hres
                    | i' a0 r' a1 t1 t2 res Hfree Hrestore Hreplay Heq Hres ].
  - destruct (Hreads _ (eq_sym Heq)). by repeat constructor.
  - destruct (Hreads _ (eq_sym Heq)). by repeat constructor.
  - destruct (Hreads _ (eq_sym Heq)). by repeat constructor.
  - destruct (Hreads _ (eq_sym Heq)). by repeat constructor.
  - destruct (Hsplit _ _ _ _ _ (eq_sym Heq)) as (-> & Hev & ->).
    injection Hev as -> ->. exists i', a0, r'. split_and!; [done | done | done |].
    intros err [= ->]. done.
  - unfold masterSet in Heq.
    destruct (Hsplit _ _ _ _ _ (eq_sym Heq)) as (-> & Hev & ->).
    injection Hev as -> ->. exists i', a0, r'. split_and!; [done | done | done |].
    intros err [=].
  - unfold masterSet in Heq. simpl in Heq.
    destruct (Hsplit _ _ _ _ _ (eq_sym Heq)) as (-> & Hev & ->).
    injection Hev as -> ->. exists i', a0, r'. split_and!; [done | done | done |].
    intros err [=].
  - unfold masterSet in Heq. simpl in Heq.
    destruct (Hsplit _ _ _ _ _ (eq_sym Heq)) as (-> & Hev & ->).
    injection Hev as -> ->. exists i', a0, r'. split_and!; [done | done | done |].
    intros err [=].
Qed.

Lemma addInterface_first_mutation_witness :
  let o := run (Sim.failing (KernelError 1) Sim.kernel)
             (addInterface addrEqual Fixture.blue "eth1") (Some 3%nat, Fixture.ns) in
  returned o
  = Some (Errorf "could not set vrf %s as master of %s: %v"
            [ArgString "vrf-blue"; ArgString "eth1"; ArgError (KernelError 1)])
  ∧ length (trace o) = 4%nat
  ∧ snd (world o) = Fixture.ns.
Proof.
  intros o.
  destruct (addInterface_first_mutation _ (Sim.failing (KernelError 1) Sim.kernel)
              (Some 3%nat, Fixture.ns) addrEqual Fixture.blue "eth1"
              (take 3 (trace o)) (drop 4 (trace o))
              (CLinkSetMaster Fixture.eth1 (LinkVrf Fixture.blue))
              (RStatus (Some (KernelError 1))))
    as (i & addrs0 & r & _ & _ & _ & Hfail).
  - vm_compute. reflexivity.
  - vm_compute. repeat constructor.
  - reflexivity.
  - destruct (Hfail (KernelError 1) eq_refl) as [_ Hres].
    split_and!; [exact Hres | vm_compute; reflexivity | vm_compute; reflexivity].
Defined.

(* --------------------------------------------------------------------- *)
(* assignedInterfaces                                                    *)
(* --------------------------------------------------------------------- *)

(** X8: assignedInterfaces makes one call, the link listing, and changes
    nothing; from the listed links it returns, in listing order, exactly
    those whose master index is the index of the VRF, and a failed
    listing comes back as an error that carries the failure. *)
Theorem assignedInterfaces_members W (h : Handler W) (w : W) (vrf : Vrf) :
  let o := run h (assignedInterfaces vrf) w in
  trace o = [(CLinkList, RLinks (h CLinkList w).1)]
  ∧ world o = (h CLinkList w).2
  ∧ match (h CLinkList w).1 with
    | Ok links =>
        ∃ res, returned o = Ok res
               ∧ res `sublist_of` links
               ∧ ∀ l, l ∈ res ↔ l ∈ links
                                ∧ MasterIndex (Attrs l) = Index (vrf_LinkAttrs vrf)
    | Error err =>
        returned o = Error (Errorf "getAssignedInterfaces: Failed to find links %v"
                              [ArgError err])
    end.
Proof.
  unfold assignedInterfaces, netlinksafe.LinkList, call.
  rewrite run_bind, run_Vis.
  destruct (h CLinkList w) as [[links | err] w1];
    cbn [fst snd returned world trace run bind mbind Prog_bind]; [| done].
  split_and!; [done | done |]. eexists. split_and!; [done | apply sublist_filter |].
  intros l. rewrite list_elem_of_filter. tauto.
Qed.

(* --------------------------------------------------------------------- *)
(* Membership in the simulated namespace                                 *)
(* --------------------------------------------------------------------- *)

Lemma allCalls_bind {A B} (P : Call → Prop) (p : Prog A) (f : A → Prog B) :
  allCalls P p → (∀ a, allCalls P (f a)) → allCalls P (p ≫= f).
Proof.
  unfold mbind, Prog_bind. intros Hp Hf.
  induction p as [a | c k IH]; simpl in *; [apply Hf |].
  destruct Hp as [Hc Hk]. split; [done |]. intros x. by apply IH.
Qed.

Lemma run_invariant {W A} (h : Handler W) (P : Call → Prop) (I : W → Prop)
    (p : Prog A) :
  allCalls P p →
  (∀ c w, P c → I w → I (h c w).2) →
  ∀ w, I w → I (world (run h p w)).
Proof.
  intros Hp Hstep. induction p as [a | c k IH]; intros w Hw; simpl; [done |].
  destruct Hp as [Hc Hk]. specialize (Hstep c w Hc Hw).
  destruct (h c w) as [x w1]. simpl in *. by apply IH.
Qed.

Lemma allCalls_waitForHostRoute vrf i intf toFind counts :
  allCalls keepsLinks (waitForHostRoute vrf i intf toFind counts).
Proof.
  induction counts as [| retryCount rest IH]; [done |].
  cbn [waitForHostRoute]. apply allCalls_bind; [by split |].
  intros [routesVRFTable | err]; [| done].
  case_decide; [done |]. case_decide; [done |].
  apply allCalls_bind; [by split |]. intros _. exact IH.
Qed.

Lemma allCalls_restoreAddresses Equal vrf i intf afterAddresses beforeAddresses :
  allCalls keepsLinks
    (restoreAddresses Equal vrf i intf afterAddresses beforeAddresses).
Proof.
  induction beforeAddresses as [| toFind rest IH]; [done |].
  cbn [restoreAddresses]. destruct (foundIn Equal afterAddresses toFind); [done |].
  apply allCalls_bind; [by split |]. intros [err |]; [done |].
  apply allCalls_bind; [apply allCalls_waitForHostRoute |].
  intros [err |]; done.
Qed.

Lemma allCalls_replayRoutes vrf globalRoutes :
  allCalls keepsLinks (replayRoutes vrf globalRoutes).
Proof.
  induction globalRoutes as [| route rest IH]; [done |].
  cbn [replayRoutes]. apply allCalls_bind; [by split |]. intros [err |]; done.
Qed.

Lemma Sim_keepsLinks (c : Call) (n : Sim.Netns) :
  keepsLinks c → Sim.links (Sim.kernel c n).2 = Sim.links n.
Proof.
  destruct c; simpl; try done.
  - intros _. by destruct (Sim.byName _ n).
  - intros _. by case_decide.
Qed.

Lemma Sim_byName_Some name (n : Sim.Netns) l :
  Sim.byName name n = Some l → l ∈ Sim.links n ∧ Name (Attrs l) = name.
Proof.
  unfold Sim.byName. intros Hhead.
  apply head_Some_elem_of in Hhead. apply list_elem_of_filter in Hhead. tauto.
Qed.

Lemma Sim_setMaster_attrs master l :
  Name (Attrs (Sim.setMaster master l)) = Name (Attrs l)
  ∧ Index (Attrs (Sim.setMaster master l)) = Index (Attrs l)
  ∧ MasterIndex (Attrs (Sim.setMaster master l)) = master.
Proof. by destruct l. Qed.

Lemma Sim_AddrList link family (n : Sim.Netns) :
  ∃ addresses, Sim.kernel (CAddrList link family) n = (Ok addresses, n).
Proof. by eexists. Qed.

Lemma Sim_RouteListFiltered family flt mask (n : Sim.Netns) :
  ∃ routes, Sim.kernel (CRouteListFiltered family flt mask) n
            = (Ok routes, Sim.tick n).
Proof. by eexists. Qed.

Lemma Sim_LinkSetMaster link master (n n' : Sim.Netns) :
  Sim.kernel (CLinkSetMaster link master) n = (None, n') →
  Sim.links n'
  = map (fun l => if decide (Index (Attrs l) = Index (Attrs link))
                  then Sim.setMaster (Index (Attrs master)) l else l)
      (Sim.links n).
Proof.
  simpl. destruct (Sim.byIndex (Index (Attrs link)) n); [| done].
  destruct (Sim.keep_addr_on_down n); by intros [= <-].
Qed.

(** X9: in the simulated namespace, after an addInterface that returned
    without error the link of that name has the VRF's index as its master
    index and is among the links assignedInterfaces returns for the
    VRF. *)
Theorem addInterface_then_assigned (n : Sim.Netns) (vrf : Vrf) (intf : string) :
  let o := run Sim.kernel (addInterface addrEqual vrf intf) n in
  returned o = None →
  ∃ links l,
    returned (run Sim.kernel (assignedInterfaces vrf) (world o)) = Ok links
    ∧ l ∈ links
    ∧ Name (Attrs l) = intf
    ∧ MasterIndex (Attrs l) = Index (vrf_LinkAttrs vrf).
Proof.
  intros o Hok.
  assert (∃ l, l ∈ Sim.links (world o) ∧ Name (Attrs l) = intf
               ∧ MasterIndex (Attrs l) = Index (vrf_LinkAttrs vrf))
    as (l & Hl & Hname & Hmaster).
  { subst o. revert Hok.
    unfold addInterface, netlinksafe.LinkByName, call.
    rewrite run_bind, run_Vis.
    change (Sim.kernel (CLinkByName intf) n)
      with (Sim.lookup (Sim.byName intf n), n).
    destruct (Sim.byName intf n) as [i |] eqn:Hfind;
      cbn [Sim.lookup fst snd returned world trace run bind mbind Prog_bind];
      [| done].
    apply Sim_byName_Some in Hfind as [Hi Hiname].
    case_decide as Hfree.
    { unfold netlink.LinkByIndex, call. rewrite run_bind, run_Vis.
      by destruct (Sim.kernel (CLinkByIndex (MasterIndex (Attrs i))) n) as [[m | e] n0]. }
    rewrite run_bind, run_getGlobalAddresses.
    destruct (Sim_AddrList i netlink.FAMILY_V6 n) as [addrs0 ->].
    cbn [fst snd returned world trace run bind mbind Prog_bind].
    unfold netlinksafe.RouteListFiltered, call. rewrite run_bind, run_Vis.
    destruct (Sim_RouteListFiltered netlink.FAMILY_ALL (snapshotFilter i)
                snapshotMask n) as [r ->].
    cbn [fst snd returned world trace run bind mbind Prog_bind].
    unfold netlink.LinkSetMaster, call. rewrite run_bind, run_Vis.
    destruct (Sim.kernel (CLinkSetMaster i (LinkVrf vrf)) (Sim.tick n))
      as [[err |] n2] eqn:Hset;
      cbn [fst snd returned world trace run bind mbind Prog_bind]; [done |].
    apply Sim_LinkSetMaster in Hset.
    rewrite run_bind, run_getGlobalAddresses.
    destruct (Sim_AddrList i netlink.FAMILY_V6 n2) as [addrs1 ->].
    cbn [fst snd returned world trace run bind mbind Prog_bind].
    intros _.
    match goal with
    | |- context [run Sim.kernel ?p n2] =>
        pose proof (run_invariant Sim.kernel keepsLinks
                      (fun m => Sim.links m = Sim.links n2) p) as Hinv
    end.
    rewrite Hinv.
    - exists (Sim.setMaster (Index (Attrs (LinkVrf vrf))) i).
      destruct (Sim_setMaster_attrs (Index (Attrs (LinkVrf vrf))) i)
        as (Hn & _ & Hm).
      split_and!; [| by rewrite Hn | by rewrite Hm].
      rewrite Hset. apply list_elem_of_fmap. exists i.
      split; [by rewrite decide_True | done].
    - apply allCalls_bind; [apply allCalls_restoreAddresses |].
      intros [err |]; [done | apply allCalls_replayRoutes].
    - intros c m Hc Hm. by rewrite Sim_keepsLinks.
    - done. }
  exists (filter (fun l => MasterIndex (Attrs l) = Index (vrf_LinkAttrs vrf))
            (Sim.links (world o))), l.
  split_and!; [done | | done | done].
  apply list_elem_of_filter. done.
Qed.

Lemma addInterface_then_assigned_witness :
  let o := run Sim.kernel (addInterface addrEqual Fixture.blue "eth1") Fixture.ns in
  returned (run Sim.kernel (assignedInterfaces Fixture.blue) (world o))
  = Ok [device "eth1" 2 3]
  ∧ ∃ links l,
      returned (run Sim.kernel (assignedInterfaces Fixture.blue) (world o)) = Ok links
      ∧ l ∈ links
      ∧ Name (Attrs l) = "eth1"
      ∧ MasterIndex (Attrs l) = Index (vrf_LinkAttrs Fixture.blue).
Proof.
  intros o. split; [vm_compute; reflexivity |].
  apply (addInterface_then_assigned Fixture.ns Fixture.blue "eth1").
  vm_compute. reflexivity.
Defined.

(** X10: in the simulated namespace, after a resetMaster that returned
    without error, assignedInterfaces of a VRF with a non-zero index
    returns no link that has the index of the interface resetMaster
    looked up. *)
Theorem resetMaster_then_unassigned (n : Sim.Netns) (vrf : Vrf)
    (interfaceName : string) (intf : Link) :
  let o := run Sim.kernel (resetMaster interfaceName) n in
  Index (vrf_LinkAttrs vrf) ≠ 0 →
  Sim.byName interfaceName n = Some intf →
  returned o = None
  ∧ ∃ links,
      returned (run Sim.kernel (assignedInterfaces vrf) (world o)) = Ok links
      ∧ ∀ l, l ∈ links → Index (Attrs l) ≠ Index (Attrs intf).
Proof.
  intros o Hvrf Hfind. subst o.
  unfold resetMaster, netlinksafe.LinkByName, call. rewrite run_bind, run_Vis.
  change (Sim.kernel (CLinkByName interfaceName) n)
    with (Sim.lookup (Sim.byName interfaceName n), n).
  rewrite Hfind.
  cbn [Sim.lookup fst snd returned world trace run bind mbind Prog_bind].
  split; [done |].
  eexists. split; [reflexivity |].
  intros l Hl. apply list_elem_of_filter in Hl as [Hmaster Hl].
  simpl in Hl. apply list_elem_of_fmap in Hl as (l0 & -> & Hl0).
  case_decide as Hidx; [| done].
  destruct (Sim_setMaster_attrs 0 l0) as (_ & _ & Hm). congruence.
Qed.

Lemma resetMaster_then_unassigned_witness :
  let enslaved := world (run Sim.kernel (addInterface addrEqual Fixture.blue "eth1")
                           Fixture.ns) in
  let o := run Sim.kernel (resetMaster "eth1") enslaved in
  returned (run Sim.kernel (assignedInterfaces Fixture.blue) enslaved)
  = Ok [device "eth1" 2 3]
  ∧ returned (run Sim.kernel (assignedInterfaces Fixture.blue) (world o)) = Ok []
  ∧ returned o = None.
Proof.
  intros enslaved o.
  split; [vm_compute; reflexivity |]. split; [vm_compute; reflexivity |].
  refine (proj1 (resetMaster_then_unassigned enslaved Fixture.blue "eth1"
                   (device "eth1" 2 3) _ _)).
  - simpl. lia.
  - vm_compute. reflexivity.
Defined.
